(** * Portfolio accounting engine of the cost-basis tracker (src/App.tsx)

    A shallow embedding of the derived-state computations of [App.tsx]:
    [currentTransactions], [transactionsWithStats], [summary],
    [previewData], [simulation] and [costAveragingData], and of the
    handlers that change the state of the component, together with the
    properties the specification states about them and further properties
    of the code.

    Numbers.  The engine computes on JavaScript numbers, which are IEEE-754
    doubles.  The code is embedded twice.

    The module [Double] is the engine on binary64 floating-point numbers
    ([spec_float] at the precision 53 and the exponent bound 1024): signed
    zeros, infinities and [NaN], every [+], [-], [*], [/] rounded to
    nearest, ties to even, comparisons that are false on [NaN], and
    [Math.max] with its [NaN] case.  What the statements say of computed
    amounts (the quantity and the capital of the solver, the position
    after a sale, the sign of the totals) is settled on that model.

    The first embedding takes numbers as exact rationals ([Q]): the field
    operations and the order of [Q], with [NaN] only as the result of
    [parseFloat], an [option].  It describes the code up to rounding,
    overflow and [NaN], and carries the statements that are about the
    control flow and the data rather than about rounded amounts: which
    guard returns, which transactions count, where the clamp is applied,
    how the history is ordered and how the handlers change the store.
    Equalities between its amounts are stated with [==], the equality of
    rationals. *)

From Stdlib Require Import String QArith Qminmax Lqa Lia Bool Arith List.
From Stdlib Require Import Sorted Permutation SpecFloat.
Import ListNotations.

Local Open Scope Q_scope.

(** ** JavaScript numbers and text fields *)

Module JS.

(** Numbers of the exact embedding; the doubles are [Double.number]. *)
Definition number : Type := Q.

(** [a > b], [a < b], [a <= b], [a >= b] and [a === b] on numbers. *)
Definition gt (a b : number) : bool := negb (Qle_bool a b).
Definition lt (a b : number) : bool := negb (Qle_bool b a).
Definition le (a b : number) : bool := Qle_bool a b.
Definition ge (a b : number) : bool := Qle_bool b a.
Definition strict_eq (a b : number) : bool := Qeq_bool a b.

(** [Math.max(a, b)] on rationals; [Double.Math_max] has the [NaN] case
    and the signed zeros. *)
Definition Math_max (a b : number) : number := Qmax a b.

(** The content of a text input, as far as the engine observes it: [!s]
    holds of the empty string only, and [parseFloat s] is a number or
    [NaN]. *)
Inductive text : Type :=
| Empty
| NotANumber
| Numeric (x : number).

(** [!s] *)
Definition falsy (s : text) : bool :=
  match s with
  | Empty => true
  | _ => false
  end.

(** [parseFloat(s)]; [None] is [NaN], so [isNaN] is the test for [None]. *)
Definition parseFloat (s : text) : option number :=
  match s with
  | Numeric x => Some x
  | _ => None
  end.

End JS.

Import JS.

(** ** Data model (the declarations of [./types]) *)

Inductive TransactionType : Type := BUY | SELL.

Record Transaction : Type := mkTransaction {
  id : string;
  symbol : string;
  price : number;
  quantity : number;
  timestamp : number;
  isActive : option bool;   (* [isActive?: boolean] *)
  type : TransactionType
}.

Record PortfolioSummary : Type := mkSummary {
  totalQuantity : number;
  totalCost : number;
  averageCost : number
}.

Inductive Status : Type := PROFIT | LOSS | NEUTRAL.

Record SimulationResult : Type := mkSimulation {
  currentValue : number;
  profitOrLossTotal : number;
  profitOrLossPerShare : number;
  percentageChange : number;
  status : Status
}.

(** [t.isActive !== false]: a missing flag counts as active. *)
Definition is_active (t : Transaction) : bool :=
  match isActive t with
  | Some false => false
  | _ => true
  end.

(** ** [transactionsWithStats]: the realized P/L annotator *)

(** The two variables the closure of [map] mutates. *)
Record Running : Type := mkRunning {
  runningQty : number;
  runningTotalCost : number
}.

(** [{ ...t, realizedPL, realizedPLPercent }]; [None] is [null]. *)
Record TransactionWithStats : Type := mkStats {
  tx : Transaction;
  realizedPL : option number;
  realizedPLPercent : number
}.

Definition running0 : Running := mkRunning 0 0.

(** [Math.max(0, _)] on both running totals, the last statements of the
    callback. *)
Definition clamp (r : Running) : Running :=
  mkRunning (Math_max 0 (runningQty r)) (Math_max 0 (runningTotalCost r)).

(** One call of the callback of [currentTransactions.map]. *)
Definition annotate_step (r : Running) (t : Transaction)
  : TransactionWithStats * Running :=
  let currentAvgCost :=
    if gt (runningQty r) 0 then runningTotalCost r / runningQty r else 0 in
  if is_active t then
    match type t with
    | BUY =>
        (mkStats t None 0,
         clamp (mkRunning (runningQty r + quantity t)
                          (runningTotalCost r + price t * quantity t)))
    | SELL =>
        if gt (runningQty r) 0 then
          let costBasis := quantity t * currentAvgCost in
          let saleProceeds := quantity t * price t in
          (mkStats t (Some (saleProceeds - costBasis))
                   (if gt currentAvgCost 0
                    then ((price t - currentAvgCost) / currentAvgCost) * 100
                    else 0),
           clamp (mkRunning (runningQty r - quantity t)
                            (runningTotalCost r - costBasis)))
        else
          (mkStats t None 0,
           clamp (mkRunning (runningQty r - quantity t)
                            (runningTotalCost r - price t * quantity t)))
    end
  else (mkStats t None 0, clamp r).

(** The [map] itself, threading the running totals from left to right. *)
Fixpoint annotate_from (r : Running) (l : list Transaction)
  : list TransactionWithStats * Running :=
  match l with
  | [] => ([], r)
  | t :: l' =>
      let '(a, r') := annotate_step r t in
      let '(rest, r'') := annotate_from r' l' in
      (a :: rest, r'')
  end.

Definition transactionsWithStats (currentTransactions : list Transaction)
  : list TransactionWithStats :=
  fst (annotate_from running0 currentTransactions).

(** The running totals when [map] has finished. *)
Definition annotator_final (currentTransactions : list Transaction) : Running :=
  snd (annotate_from running0 currentTransactions).

(** ** [summary]: the position aggregator *)

(** The body of [for (const t of activeTx)], on [(currentQty, currentTotalCost)]. *)
Definition summary_step (st : number * number) (t : Transaction)
  : number * number :=
  let '(currentQty, currentTotalCost) := st in
  match type t with
  | BUY => (currentQty + quantity t, currentTotalCost + price t * quantity t)
  | SELL =>
      if gt currentQty 0 then
        let avgCost := currentTotalCost / currentQty in
        let currentQty' := currentQty - quantity t in
        (currentQty', currentQty' * avgCost)
      else
        (currentQty - quantity t, currentTotalCost - price t * quantity t)
  end.

Definition summary_loop (activeTx : list Transaction) : number * number :=
  fold_left summary_step activeTx (0, 0).

(** What follows the loop: clamp, then the guarded average. *)
Definition summary_finish (st : number * number) : PortfolioSummary :=
  let currentQty := Math_max 0 (fst st) in
  let currentTotalCost := Math_max 0 (snd st) in
  let avg := if gt currentQty 0 then currentTotalCost / currentQty else 0 in
  mkSummary currentQty currentTotalCost avg.

Definition summary (currentTransactions : list Transaction) : PortfolioSummary :=
  let activeTx := filter is_active currentTransactions in
  if Nat.eqb (length activeTx) 0 then mkSummary 0 0 0
  else summary_finish (summary_loop activeTx).

(** ** [previewData]: the preview engine *)

Record Preview : Type := mkPreview {
  newAvg : number;
  diff : number;
  isFirst : bool;
  estimatedRealizedPL : option number
}.

Definition previewData (inputPrice inputQuantity : text)
    (transactionType : TransactionType) (summary : PortfolioSummary)
  : option Preview :=
  match parseFloat inputPrice, parseFloat inputQuantity with
  | Some p, Some q =>
      if le p 0 || le q 0 then None
      else
        let currentQ := totalQuantity summary in
        let currentC := totalCost summary in
        let currentAvg := averageCost summary in
        let '(futureQ, futureC, estimated) :=
          match transactionType with
          | BUY => (currentQ + q, currentC + p * q, 0)
          | SELL =>
              let futureQ := Math_max 0 (currentQ - q) in
              (futureQ, futureQ * currentAvg, (p - currentAvg) * q)
          end in
        let futureAvg := if gt futureQ 0 then futureC / futureQ else 0 in
        Some (mkPreview futureAvg (futureAvg - currentAvg)
                (strict_eq currentQ 0)
                (match transactionType with
                 | SELL => Some estimated
                 | BUY => None
                 end))
  | _, _ => None      (* isNaN(p) || isNaN(q) *)
  end.

(** ** [simulation]: the simulation engine *)

Definition simulation (simulationPrice : text) (summary : PortfolioSummary)
  : option SimulationResult :=
  if falsy simulationPrice || strict_eq (totalQuantity summary) 0 then None
  else
    match parseFloat simulationPrice with
    | None => None
    | Some currentP =>
        let currentVal := currentP * totalQuantity summary in
        let plTotal := currentVal - totalCost summary in
        let plPerShare := currentP - averageCost summary in
        let pctChange :=
          if gt (averageCost summary) 0
          then (plPerShare / averageCost summary) * 100 else 0 in
        Some (mkSimulation currentVal plTotal plPerShare pctChange
                (if gt plTotal 0 then PROFIT
                 else if lt plTotal 0 then LOSS else NEUTRAL))
    end.

(** ** [costAveragingData]: the cost-averaging solver *)

(** The two shapes of the object the solver returns: [{ error }] and
    [{ requiredQty, requiredCapital, error: null }]. *)
Inductive CostAveraging : Type :=
| Infeasible (error : string)
| Solved (requiredQty requiredCapital : number).

(** The two messages of the source: "target > current price" and
    "target < average cost". *)
Definition error_target_vs_price : string := "Hedef > Anlık Fiyat".
Definition error_target_vs_average : string := "Hedef < Ort. Maliyet".

Definition is_loss (s : Status) : bool :=
  match s with
  | LOSS => true
  | _ => false
  end.

(** [simulation] is the value derived above from the same [simulationPrice]
    and [summary]; when it is not [null] the price has parsed, so the [NaN]
    price below is never reached (see [simulation_price_parsed]). *)
Definition costAveragingData (targetAverageInput simulationPrice : text)
    (summary : PortfolioSummary) : option CostAveraging :=
  match simulation simulationPrice summary with
  | None => None
  | Some sim =>
      if negb (is_loss (status sim)) || falsy targetAverageInput then None
      else
        match parseFloat targetAverageInput, parseFloat simulationPrice with
        | None, _ => None
        | Some targetAvg, None => None
        | Some targetAvg, Some simPrice =>
            if le targetAvg 0 then None
            else if le targetAvg simPrice then
              Some (Infeasible error_target_vs_price)
            else if ge targetAvg (averageCost summary) then
              Some (Infeasible error_target_vs_average)
            else
              let requiredQty :=
                totalQuantity summary * (averageCost summary - targetAvg)
                / (targetAvg - simPrice) in
              let requiredCapital := requiredQty * simPrice in
              Some (Solved requiredQty requiredCapital)
        end
  end.

(** ** The replay that clamps in each iteration *)

(** The replay with the clamp inside the loop, as the error-handling
    section of the specification words it for the aggregator: the loop body
    of [summary], followed in each iteration by [Math.max(0, _)] on both
    totals. *)
Definition summary_step_clamped (st : number * number) (t : Transaction)
  : number * number :=
  let st' := summary_step st t in
  (Math_max 0 (fst st'), Math_max 0 (snd st')).

Definition summary_loop_clamped (activeTx : list Transaction) : number * number :=
  fold_left summary_step_clamped activeTx (0, 0).

(** The running totals of the annotator and a loop state that hold the same
    non-negative amounts. *)
Definition same_totals (r : Running) (st : number * number) : Prop :=
  runningQty r == fst st /\ runningTotalCost r == snd st /\
  0 <= fst st /\ 0 <= snd st.

(** The loop of [summary] never leaves a negative total when run on [l]
    from [st]: no sale exceeds the holding. *)
Fixpoint never_negative (st : number * number) (l : list Transaction) : Prop :=
  match l with
  | [] => True
  | t :: l' =>
      0 <= fst (summary_step st t) /\ 0 <= snd (summary_step st t) /\
      never_negative (summary_step st t) l'
  end.

(** Two loop states that hold the same amounts. *)
Definition eq_totals (a b : number * number) : Prop :=
  fst a == fst b /\ snd a == snd b.

(** ** Sample data *)

Definition buy (p q : number) : Transaction :=
  mkTransaction "sample" "GENEL" p q 0 (Some true) BUY.
Definition sell (p q : number) : Transaction :=
  mkTransaction "sample" "GENEL" p q 0 (Some true) SELL.
Definition deactivate (t : Transaction) : Transaction :=
  mkTransaction (id t) (symbol t) (price t) (quantity t) (timestamp t)
                (Some false) (type t).

(** ** [currentTransactions]: the history of the selected portfolio *)

(** The comparator handed to [sort]: [(a, b) => a.timestamp - b.timestamp]. *)
Definition by_timestamp (a b : Transaction) : number :=
  timestamp a - timestamp b.

(** [Array.prototype.sort] is stable: elements the comparator does not
    order keep the order they had.  With [by_timestamp] its result is the
    stable ordering by timestamp, built here by insertion from the right:
    [t] goes before the first element it is not later than. *)
Fixpoint insert_by_timestamp (t : Transaction) (l : list Transaction)
  : list Transaction :=
  match l with
  | [] => [t]
  | u :: l' =>
      if le (by_timestamp t u) 0 then t :: u :: l'
      else u :: insert_by_timestamp t l'
  end.

Fixpoint sort_by_timestamp (l : list Transaction) : list Transaction :=
  match l with
  | [] => []
  | t :: l' => insert_by_timestamp t (sort_by_timestamp l')
  end.

(** [t.symbol === activeSymbol] *)
Definition has_symbol (activeSymbol : string) (t : Transaction) : bool :=
  String.eqb (symbol t) activeSymbol.

Definition currentTransactions (transactions : list Transaction)
    (activeSymbol : string) : list Transaction :=
  sort_by_timestamp (filter (has_symbol activeSymbol) transactions).

(** The history is in the order of its timestamps. *)
Definition by_time (l : list Transaction) : Prop :=
  StronglySorted (fun a b => timestamp a <= timestamp b) l.

(** ** The state of the component and its handlers *)

(** The [useState] cells of [App]. *)
Record AppState : Type := mkApp {
  stockList : list string;
  activeSymbol : string;
  transactions : list Transaction;
  isAddingStock : bool;
  newStockName : string;
  isRenaming : bool;
  renameValue : string;
  transactionType : TransactionType;
  inputPrice : text;
  inputQuantity : text;
  simulationPrice : text;
  targetAverageInput : text;
  backupTransactions : option (list Transaction);   (* [null] is [None] *)
  showUndoToast : bool
}.

(** The setters.  A handler runs against the state of one render, so its
    calls compose into one new state. *)
Definition setStockList (v : list string) (st : AppState) : AppState :=
  mkApp v (activeSymbol st) (transactions st) (isAddingStock st)
        (newStockName st) (isRenaming st) (renameValue st)
        (transactionType st) (inputPrice st) (inputQuantity st)
        (simulationPrice st) (targetAverageInput st)
        (backupTransactions st) (showUndoToast st).

Definition setActiveSymbol (v : string) (st : AppState) : AppState :=
  mkApp (stockList st) v (transactions st) (isAddingStock st)
        (newStockName st) (isRenaming st) (renameValue st)
        (transactionType st) (inputPrice st) (inputQuantity st)
        (simulationPrice st) (targetAverageInput st)
        (backupTransactions st) (showUndoToast st).

Definition setTransactions (v : list Transaction) (st : AppState) : AppState :=
  mkApp (stockList st) (activeSymbol st) v (isAddingStock st)
        (newStockName st) (isRenaming st) (renameValue st)
        (transactionType st) (inputPrice st) (inputQuantity st)
        (simulationPrice st) (targetAverageInput st)
        (backupTransactions st) (showUndoToast st).

Definition setIsAddingStock (v : bool) (st : AppState) : AppState :=
  mkApp (stockList st) (activeSymbol st) (transactions st) v
        (newStockName st) (isRenaming st) (renameValue st)
        (transactionType st) (inputPrice st) (inputQuantity st)
        (simulationPrice st) (targetAverageInput st)
        (backupTransactions st) (showUndoToast st).

Definition setNewStockName (v : string) (st : AppState) : AppState :=
  mkApp (stockList st) (activeSymbol st) (transactions st) (isAddingStock st)
        v (isRenaming st) (renameValue st)
        (transactionType st) (inputPrice st) (inputQuantity st)
        (simulationPrice st) (targetAverageInput st)
        (backupTransactions st) (showUndoToast st).

Definition setIsRenaming (v : bool) (st : AppState) : AppState :=
  mkApp (stockList st) (activeSymbol st) (transactions st) (isAddingStock st)
        (newStockName st) v (renameValue st)
        (transactionType st) (inputPrice st) (inputQuantity st)
        (simulationPrice st) (targetAverageInput st)
        (backupTransactions st) (showUndoToast st).

Definition setRenameValue (v : string) (st : AppState) : AppState :=
  mkApp (stockList st) (activeSymbol st) (transactions st) (isAddingStock st)
        (newStockName st) (isRenaming st) v
        (transactionType st) (inputPrice st) (inputQuantity st)
        (simulationPrice st) (targetAverageInput st)
        (backupTransactions st) (showUndoToast st).

Definition setInputPrice (v : text) (st : AppState) : AppState :=
  mkApp (stockList st) (activeSymbol st) (transactions st) (isAddingStock st)
        (newStockName st) (isRenaming st) (renameValue st)
        (transactionType st) v (inputQuantity st)
        (simulationPrice st) (targetAverageInput st)
        (backupTransactions st) (showUndoToast st).

Definition setInputQuantity (v : text) (st : AppState) : AppState :=
  mkApp (stockList st) (activeSymbol st) (transactions st) (isAddingStock st)
        (newStockName st) (isRenaming st) (renameValue st)
        (transactionType st) (inputPrice st) v
        (simulationPrice st) (targetAverageInput st)
        (backupTransactions st) (showUndoToast st).

Definition setSimulationPrice (v : text) (st : AppState) : AppState :=
  mkApp (stockList st) (activeSymbol st) (transactions st) (isAddingStock st)
        (newStockName st) (isRenaming st) (renameValue st)
        (transactionType st) (inputPrice st) (inputQuantity st)
        v (targetAverageInput st)
        (backupTransactions st) (showUndoToast st).

Definition setTargetAverageInput (v : text) (st : AppState) : AppState :=
  mkApp (stockList st) (activeSymbol st) (transactions st) (isAddingStock st)
        (newStockName st) (isRenaming st) (renameValue st)
        (transactionType st) (inputPrice st) (inputQuantity st)
        (simulationPrice st) v
        (backupTransactions st) (showUndoToast st).

Definition setBackupTransactions (v : option (list Transaction))
    (st : AppState) : AppState :=
  mkApp (stockList st) (activeSymbol st) (transactions st) (isAddingStock st)
        (newStockName st) (isRenaming st) (renameValue st)
        (transactionType st) (inputPrice st) (inputQuantity st)
        (simulationPrice st) (targetAverageInput st)
        v (showUndoToast st).

Definition setShowUndoToast (v : bool) (st : AppState) : AppState :=
  mkApp (stockList st) (activeSymbol st) (transactions st) (isAddingStock st)
        (newStockName st) (isRenaming st) (renameValue st)
        (transactionType st) (inputPrice st) (inputQuantity st)
        (simulationPrice st) (targetAverageInput st)
        (backupTransactions st) v.

(** Truthiness of a string: only the empty string is falsy. *)
Definition truthy (s : string) : bool :=
  match s with
  | EmptyString => false
  | String _ _ => true
  end.

(** [stockList.includes(name)] *)
Definition includes (l : list string) (name : string) : bool :=
  existsb (String.eqb name) l.

(** [{ ...t, symbol: newName }] *)
Definition with_symbol (newName : string) (t : Transaction) : Transaction :=
  mkTransaction (id t) newName (price t) (quantity t) (timestamp t)
                (isActive t) (type t).

(** [{ ...t, isActive: !t.isActive }]; [!undefined] is [true]. *)
Definition with_flipped_flag (t : Transaction) : Transaction :=
  mkTransaction (id t) (symbol t) (price t) (quantity t) (timestamp t)
                (match isActive t with
                 | Some true => Some false
                 | _ => Some true
                 end)
                (type t).

Section Handlers.

(** [String.prototype.toUpperCase] and [String.prototype.trim] are taken
    as they are; nothing is assumed about them. *)
Variable toUpperCase : string -> string.
Variable trim : string -> string.

Definition handleAddStock (st : AppState) : AppState :=
  if truthy (trim (newStockName st)) then
    let name := trim (toUpperCase (newStockName st)) in
    let st1 :=
      if negb (includes (stockList st) name)
      then setStockList (stockList st ++ [name]) st
      else st in
    setTargetAverageInput Empty
      (setInputQuantity Empty
         (setInputPrice Empty
            (setSimulationPrice Empty
               (setIsAddingStock false
                  (setNewStockName EmptyString
                     (setActiveSymbol name st1))))))
  else st.

Definition startRenaming (st : AppState) : AppState :=
  setIsRenaming true (setRenameValue (activeSymbol st) st).

(** The [alert] of the name clash shows a message and changes nothing. *)
Definition handleRenameStock (st : AppState) : AppState :=
  let newName := trim (toUpperCase (renameValue st)) in
  if negb (truthy newName) then st
  else if String.eqb newName (activeSymbol st) then setIsRenaming false st
  else if includes (stockList st) newName then st
  else
    let newStockList :=
      map (fun s => if String.eqb s (activeSymbol st) then newName else s)
          (stockList st) in
    let newTransactions :=
      map (fun t => if has_symbol (activeSymbol st) t
                    then with_symbol newName t else t)
          (transactions st) in
    setIsRenaming false
      (setActiveSymbol newName
         (setTransactions newTransactions
            (setStockList newStockList st))).

End Handlers.

(** The buttons of the header: select a portfolio of the list. *)
Definition selectStock (stock : string) (st : AppState) : AppState :=
  setIsRenaming false
    (setTargetAverageInput Empty
       (setSimulationPrice Empty
          (setActiveSymbol stock st))).

(** [newId] is the value of [crypto.randomUUID()] and [now] that of
    [Date.now()].  [p.toString()] is a text that parses back to [p]. *)
Definition handleAddTransaction (newId : string) (now : number)
    (st : AppState) : AppState :=
  match parseFloat (inputPrice st), parseFloat (inputQuantity st) with
  | Some p, Some q =>
      if le p 0 || le q 0 then st
      else
        let newTransaction :=
          mkTransaction newId (activeSymbol st) p q now (Some true)
                        (transactionType st) in
        let st1 := setTransactions (transactions st ++ [newTransaction]) st in
        let st2 :=
          match transactionType st with
          | BUY => if falsy (simulationPrice st)
                   then setSimulationPrice (Numeric p) st1 else st1
          | SELL => st1
          end in
        setInputQuantity Empty (setInputPrice Empty st2)
  | _, _ => st
  end.

Definition removeTransaction (id0 : string) (st : AppState) : AppState :=
  setTransactions
    (filter (fun t => negb (String.eqb (id t) id0)) (transactions st)) st.

Definition toggleTransactionStatus (id0 : string) (st : AppState) : AppState :=
  setTransactions
    (map (fun t => if String.eqb (id t) id0 then with_flipped_flag t else t)
         (transactions st)) st.

(** [confirmed] is the answer to [window.confirm]; the [alert] of the first
    test changes nothing.  [newList[0]] is [undefined] when nothing is left
    of the list, which the type of [activeSymbol] does not hold: that
    outcome is [None]. *)
Definition deleteCurrentStock (confirmed : bool) (st : AppState)
  : option AppState :=
  if Nat.leb (length (stockList st)) 1 then Some st
  else if confirmed then
    let newList :=
      filter (fun s => negb (String.eqb s (activeSymbol st))) (stockList st) in
    match newList with
    | [] => None
    | first :: _ =>
        Some (setTargetAverageInput Empty
                (setSimulationPrice Empty
                   (setActiveSymbol first
                      (setStockList newList
                         (setTransactions
                            (filter (fun t => negb (has_symbol (activeSymbol st) t))
                                    (transactions st)) st)))))
    end
  else Some st.

Definition handleResetTransactions (st : AppState) : AppState :=
  let txsToRemove := filter (has_symbol (activeSymbol st)) (transactions st) in
  if Nat.eqb (length txsToRemove) 0 then st
  else
    setShowUndoToast true
      (setTargetAverageInput Empty
         (setSimulationPrice Empty
            (setTransactions
               (filter (fun t => negb (has_symbol (activeSymbol st) t))
                       (transactions st))
               (setBackupTransactions (Some txsToRemove) st)))).

Definition handleUndoDelete (st : AppState) : AppState :=
  match backupTransactions st with
  | Some backup =>
      setShowUndoToast false
        (setBackupTransactions None
           (setTransactions (transactions st ++ backup) st))
  | None => st
  end.

(** The callback of the toast timer, five seconds after the toast shows. *)
Definition toastTimeout (st : AppState) : AppState :=
  setBackupTransactions None (setShowUndoToast false st).

(** The derived values of a render. *)
Definition currentOf (st : AppState) : list Transaction :=
  currentTransactions (transactions st) (activeSymbol st).

Definition summaryOf (st : AppState) : PortfolioSummary :=
  summary (currentOf st).

Definition previewOf (st : AppState) : option Preview :=
  previewData (inputPrice st) (inputQuantity st) (transactionType st)
              (summaryOf st).

(** ** Reading the stored transactions *)

(** A record as [JSON.parse] returns it from storage: older records lack
    [isActive] or [type]. *)
Record StoredTransaction : Type := mkStored {
  stored_id : string;
  stored_symbol : string;
  stored_price : number;
  stored_quantity : number;
  stored_timestamp : number;
  stored_isActive : option bool;
  stored_type : option TransactionType
}.

(** [{ ...t, isActive: t.isActive !== false, type: t.type || 'BUY' }] *)
Definition migrate (t : StoredTransaction) : Transaction :=
  mkTransaction (stored_id t) (stored_symbol t) (stored_price t)
                (stored_quantity t) (stored_timestamp t)
                (Some (match stored_isActive t with
                       | Some false => false
                       | _ => true
                       end))
                (match stored_type t with
                 | Some ty => ty
                 | None => BUY
                 end).

(** ** Invariants of the store *)

(** The list of portfolios has no duplicate and holds the selected one. *)
Definition listed (st : AppState) : Prop :=
  NoDup (stockList st) /\ In (activeSymbol st) (stockList st).

(** Every stored transaction belongs to a portfolio of the list. *)
Definition owned (st : AppState) : Prop :=
  Forall (fun t => In (symbol t) (stockList st)) (transactions st).

(** What is stored or waits in the undo buffer. *)
Definition kept (st : AppState) : list Transaction :=
  transactions st ++ match backupTransactions st with
                     | Some backup => backup
                     | None => []
                     end.

(** Every transaction kept carries the flag [isActive]. *)
Definition flagged (st : AppState) : Prop :=
  Forall (fun t => isActive t <> None) (kept st).

(** Every transaction kept has a positive price and a positive quantity. *)
Definition positive (st : AppState) : Prop :=
  Forall (fun t => 0 < price t /\ 0 < quantity t) (kept st).

(** ** Vocabulary of the statements *)

(** [f] changes nothing of a transaction that the replay reads. *)
Definition same_trade (f : Transaction -> Transaction) : Prop :=
  forall t, isActive (f t) = isActive t /\ type (f t) = type t /\
            price (f t) = price t /\ quantity (f t) = quantity t.

(** A store with two portfolios, a filled form and pending names. *)
Definition sample_store : AppState :=
  mkApp ["GENEL"%string; "AKBNK"%string] "GENEL"
        [buy 100 10; with_symbol "AKBNK" (buy 30 5); sell 150 4]
        false "THYAO" false "THYAO" BUY (Numeric 200) (Numeric 10)
        Empty Empty None false.

(** A stand-in for [toUpperCase] and [trim] on names that are already in
    upper case and trimmed. *)
Definition unchanged (s : string) : string := s.

(** ** The engine on IEEE-754 doubles *)

(** The same code once more, with JavaScript numbers as what they are:
    binary64 floating-point numbers ([spec_float] with a precision of 53
    bits), every operation rounded to nearest, ties to even, with signed
    zeros, infinities and [NaN].  Statements that depend on rounding,
    overflow, underflow or [NaN] are settled on this model. *)
Module Double.

Definition number : Type := spec_float.

Definition prec : Z := 53%Z.
Definition emax : Z := 1024%Z.

(** [a + b], [a - b], [a * b], [a / b] *)
Definition add (a b : number) : number := SFadd prec emax a b.
Definition sub (a b : number) : number := SFsub prec emax a b.
Definition mul (a b : number) : number := SFmul prec emax a b.
Definition div (a b : number) : number := SFdiv prec emax a b.

(** [a > b], [a < b], [a <= b], [a >= b], [a === b]: all [false] on [NaN]. *)
Definition gt (a b : number) : bool := SFltb b a.
Definition lt (a b : number) : bool := SFltb a b.
Definition le (a b : number) : bool := SFleb a b.
Definition ge (a b : number) : bool := SFleb b a.
Definition strict_eq (a b : number) : bool := SFeqb a b.

Definition isNaN (a : number) : bool :=
  match a with
  | S754_nan => true
  | _ => false
  end.

(** The double of an integer literal, and of a decimal literal [n / d]
    whose digits [n] and power of ten [d] are below [2 ^ 53]: the quotient
    of two exact doubles, correctly rounded, is the double nearest to the
    decimal. *)
Definition of_Z (z : Z) : number := binary_normalize prec emax z 0 false.
Definition decimal (n d : Z) : number := div (of_Z n) (of_Z d).

Definition zero : number := S754_zero false.
Definition hundred : number := of_Z 100.

(** A [spec_float] holds a mantissa and an exponent of any size; the
    doubles are those of the format: a mantissa of at most 53 bits, normal
    or subnormal, and an exponent within the range. *)
Definition is_double (a : number) : bool := valid_binary prec emax a.

(** [Number.isFinite(a)] *)
Definition isFinite (a : number) : bool :=
  match a with
  | S754_zero _ | S754_finite _ _ _ => true
  | _ => false
  end.

(** [Math.max(a, b)]: [NaN] if either argument is, and [+0] above [-0]. *)
Definition Math_max (a b : number) : number :=
  if isNaN a || isNaN b then S754_nan
  else if lt a b then b
  else if lt b a then a
  else match a with
       | S754_zero true => b
       | _ => a
       end.

(** A text input: the empty string, or a string that [parseFloat] turns
    into [parsed], which is [NaN] when the string is not numeric. *)
Inductive text : Type :=
| Empty
| Text (parsed : number).

Definition falsy (s : text) : bool :=
  match s with
  | Empty => true
  | Text _ => false
  end.

Definition parseFloat (s : text) : number :=
  match s with
  | Empty => S754_nan
  | Text parsed => parsed
  end.

Record Transaction : Type := mkTransaction {
  id : string;
  symbol : string;
  price : number;
  quantity : number;
  timestamp : number;
  isActive : option bool;
  type : TransactionType
}.

Record PortfolioSummary : Type := mkSummary {
  totalQuantity : number;
  totalCost : number;
  averageCost : number
}.

Record SimulationResult : Type := mkSimulation {
  currentValue : number;
  profitOrLossTotal : number;
  profitOrLossPerShare : number;
  percentageChange : number;
  status : Status
}.

Definition is_active (t : Transaction) : bool :=
  match isActive t with
  | Some false => false
  | _ => true
  end.

(** [transactionsWithStats] *)

Record Running : Type := mkRunning {
  runningQty : number;
  runningTotalCost : number
}.

Record TransactionWithStats : Type := mkStats {
  tx : Transaction;
  realizedPL : option number;
  realizedPLPercent : number
}.

Definition running0 : Running := mkRunning zero zero.

Definition clamp (r : Running) : Running :=
  mkRunning (Math_max zero (runningQty r)) (Math_max zero (runningTotalCost r)).

Definition annotate_step (r : Running) (t : Transaction)
  : TransactionWithStats * Running :=
  let currentAvgCost :=
    if gt (runningQty r) zero
    then div (runningTotalCost r) (runningQty r) else zero in
  if is_active t then
    match type t with
    | BUY =>
        (mkStats t None zero,
         clamp (mkRunning (add (runningQty r) (quantity t))
                          (add (runningTotalCost r)
                               (mul (price t) (quantity t)))))
    | SELL =>
        if gt (runningQty r) zero then
          let costBasis := mul (quantity t) currentAvgCost in
          let saleProceeds := mul (quantity t) (price t) in
          (mkStats t (Some (sub saleProceeds costBasis))
                   (if gt currentAvgCost zero
                    then mul (div (sub (price t) currentAvgCost) currentAvgCost)
                             hundred
                    else zero),
           clamp (mkRunning (sub (runningQty r) (quantity t))
                            (sub (runningTotalCost r) costBasis)))
        else
          (mkStats t None zero,
           clamp (mkRunning (sub (runningQty r) (quantity t))
                            (sub (runningTotalCost r)
                                 (mul (price t) (quantity t)))))
    end
  else (mkStats t None zero, clamp r).

Fixpoint annotate_from (r : Running) (l : list Transaction)
  : list TransactionWithStats * Running :=
  match l with
  | [] => ([], r)
  | t :: l' =>
      let '(a, r') := annotate_step r t in
      let '(rest, r'') := annotate_from r' l' in
      (a :: rest, r'')
  end.

Definition transactionsWithStats (currentTransactions : list Transaction)
  : list TransactionWithStats :=
  fst (annotate_from running0 currentTransactions).

Definition annotator_final (currentTransactions : list Transaction) : Running :=
  snd (annotate_from running0 currentTransactions).

(** [summary] *)

Definition summary_step (st : number * number) (t : Transaction)
  : number * number :=
  let '(currentQty, currentTotalCost) := st in
  match type t with
  | BUY => (add currentQty (quantity t),
            add currentTotalCost (mul (price t) (quantity t)))
  | SELL =>
      if gt currentQty zero then
        let avgCost := div currentTotalCost currentQty in
        let currentQty' := sub currentQty (quantity t) in
        (currentQty', mul currentQty' avgCost)
      else
        (sub currentQty (quantity t),
         sub currentTotalCost (mul (price t) (quantity t)))
  end.

Definition summary_loop (activeTx : list Transaction) : number * number :=
  fold_left summary_step activeTx (zero, zero).

Definition summary_finish (st : number * number) : PortfolioSummary :=
  let currentQty := Math_max zero (fst st) in
  let currentTotalCost := Math_max zero (snd st) in
  let avg := if gt currentQty zero then div currentTotalCost currentQty
             else zero in
  mkSummary currentQty currentTotalCost avg.

Definition summary (currentTransactions : list Transaction) : PortfolioSummary :=
  let activeTx := filter is_active currentTransactions in
  if Nat.eqb (length activeTx) 0 then mkSummary zero zero zero
  else summary_finish (summary_loop activeTx).

(** [simulation] *)

Definition simulation (simulationPrice : text) (summary : PortfolioSummary)
  : option SimulationResult :=
  if falsy simulationPrice || strict_eq (totalQuantity summary) zero then None
  else
    let currentP := parseFloat simulationPrice in
    if isNaN currentP then None
    else
      let currentVal := mul currentP (totalQuantity summary) in
      let plTotal := sub currentVal (totalCost summary) in
      let plPerShare := sub currentP (averageCost summary) in
      let pctChange :=
        if gt (averageCost summary) zero
        then mul (div plPerShare (averageCost summary)) hundred else zero in
      Some (mkSimulation currentVal plTotal plPerShare pctChange
              (if gt plTotal zero then PROFIT
               else if lt plTotal zero then LOSS else NEUTRAL)).

(** [costAveragingData]; its [simulation] is the value derived above from
    the same [simulationPrice] and [summary]. *)

Inductive CostAveraging : Type :=
| Infeasible (error : string)
| Solved (requiredQty requiredCapital : number).

Definition costAveragingData (targetAverageInput simulationPrice : text)
    (summary : PortfolioSummary) : option CostAveraging :=
  match simulation simulationPrice summary with
  | None => None
  | Some sim =>
      if negb (is_loss (status sim)) || falsy targetAverageInput then None
      else
        let targetAvg := parseFloat targetAverageInput in
        let simPrice := parseFloat simulationPrice in
        if isNaN targetAvg || le targetAvg zero then None
        else if le targetAvg simPrice then
          Some (Infeasible error_target_vs_price)
        else if ge targetAvg (averageCost summary) then
          Some (Infeasible error_target_vs_average)
        else
          let requiredQty :=
            div (mul (totalQuantity summary)
                     (sub (averageCost summary) targetAvg))
                (sub targetAvg simPrice) in
          let requiredCapital := mul requiredQty simPrice in
          Some (Solved requiredQty requiredCapital)
  end.

(** Sample data: active transactions of the portfolio [GENEL]. *)
Definition buy (p q : number) : Transaction :=
  mkTransaction "sample" "GENEL" p q zero (Some true) BUY.
Definition sell (p q : number) : Transaction :=
  mkTransaction "sample" "GENEL" p q zero (Some true) SELL.

(** [Number.MIN_VALUE], the smallest positive double: [2 ^ -1074], written
    [5e-324]. *)
Definition MIN_VALUE : number := S754_finite false 1 (-1074).

(** The blended average after buying [x] more at the price [s]:
    [(qty * avg + x * s) / (qty + x)]. *)
Definition blended (qty avg x s : number) : number :=
  div (add (mul qty avg) (mul x s)) (add qty x).

End Double.

(** ** Comparisons and [Math.max] *)

Lemma gt_spec (a b : number) : reflect (b < a) (gt a b).
Proof.
  unfold gt. destruct (Qle_bool a b) eqn:E; constructor.
  - apply Qle_bool_iff in E. apply Qle_not_lt, E.
  - apply Qnot_le_lt. intro H. apply Qle_bool_iff in H. congruence.
Qed.

Lemma lt_spec (a b : number) : reflect (a < b) (lt a b).
Proof. exact (gt_spec b a). Qed.

Lemma le_spec (a b : number) : reflect (a <= b) (le a b).
Proof.
  unfold le. destruct (Qle_bool a b) eqn:E; constructor.
  - apply Qle_bool_iff, E.
  - intro H. apply Qle_bool_iff in H. congruence.
Qed.

Lemma ge_spec (a b : number) : reflect (b <= a) (ge a b).
Proof. exact (le_spec b a). Qed.

Lemma strict_eq_spec (a b : number) : reflect (a == b) (strict_eq a b).
Proof.
  unfold strict_eq. destruct (Qeq_bool a b) eqn:E; constructor.
  - apply Qeq_bool_iff, E.
  - intro H. apply Qeq_bool_iff in H. congruence.
Qed.

Lemma Math_max_0_nonneg (x : number) : 0 <= Math_max 0 x.
Proof. apply Q.le_max_l. Qed.

Lemma Math_max_0_pos (x : number) : 0 <= x -> Math_max 0 x == x.
Proof. intro H. apply Q.max_r, H. Qed.

Lemma Math_max_0_neg (x : number) : x <= 0 -> Math_max 0 x == 0.
Proof. intro H. apply Q.max_l, H. Qed.

Lemma Math_max_0_cases (x : number) :
  (0 <= x /\ Math_max 0 x == x) \/ (x < 0 /\ Math_max 0 x == 0).
Proof.
  destruct (Qlt_le_dec x 0) as [H | H].
  - right. split; [exact H | apply Math_max_0_neg, Qlt_le_weak, H].
  - left. split; [exact H | apply Math_max_0_pos, H].
Qed.

(** Case analysis on the first comparison of the code left in the goal. *)
Ltac js_case :=
  match goal with
  | |- context [gt ?a ?b] => destruct (gt_spec a b)
  | |- context [lt ?a ?b] => destruct (lt_spec a b)
  | |- context [le ?a ?b] => destruct (le_spec a b)
  | |- context [ge ?a ?b] => destruct (ge_spec a b)
  | |- context [strict_eq ?a ?b] => destruct (strict_eq_spec a b)
  end.

(** ** The aggregator *)

Lemma summary_loop_snoc (l : list Transaction) (t : Transaction) :
  summary_loop (l ++ [t]) = summary_step (summary_loop l) t.
Proof. unfold summary_loop. rewrite fold_left_app. reflexivity. Qed.

Lemma summary_unfold (l : list Transaction) :
  summary l = summary_finish (summary_loop (filter is_active l)).
Proof.
  unfold summary. destruct (filter is_active l); reflexivity.
Qed.

Lemma summary_finish_quantity (st : number * number) :
  0 < totalQuantity (summary_finish st) ->
  0 < fst st /\ totalQuantity (summary_finish st) == fst st.
Proof.
  simpl. intro H.
  destruct (Math_max_0_cases (fst st)) as [[H0 E] | [H0 E]];
    rewrite E in H |- *; split; lra.
Qed.

(** ** The annotator *)

Lemma annotate_from_app (r : Running) (l1 l2 : list Transaction) :
  annotate_from r (l1 ++ l2) =
  (fst (annotate_from r l1) ++ fst (annotate_from (snd (annotate_from r l1)) l2),
   snd (annotate_from (snd (annotate_from r l1)) l2)).
Proof.
  revert r. induction l1 as [| t l1 IH]; intro r; simpl.
  - destruct (annotate_from r l2); reflexivity.
  - destruct (annotate_step r t) as [a r'].
    rewrite IH.
    destruct (annotate_from r' l1) as [rest r'']. reflexivity.
Qed.

Lemma annotate_from_length (r : Running) (l : list Transaction) :
  length (fst (annotate_from r l)) = length l.
Proof.
  revert r. induction l as [| t l IH]; intro r; simpl; [reflexivity |].
  destruct (annotate_step r t) as [a r'].
  specialize (IH r'). destruct (annotate_from r' l). simpl in *. lia.
Qed.

(** The entry [map] produces for a transaction is the one [annotate_step]
    computes from the running totals left by the transactions before it. *)
Lemma transactionsWithStats_nth (pre post : list Transaction) (t : Transaction) :
  nth_error (transactionsWithStats (pre ++ t :: post)) (length pre)
  = Some (fst (annotate_step (annotator_final pre) t)).
Proof.
  unfold transactionsWithStats, annotator_final.
  rewrite annotate_from_app. cbn [fst].
  rewrite nth_error_app2; rewrite annotate_from_length; [| lia].
  rewrite Nat.sub_diag. simpl.
  destruct (annotate_step (snd (annotate_from running0 pre)) t) as [a r'].
  destruct (annotate_from r' post). reflexivity.
Qed.

Lemma annotator_final_snoc (l : list Transaction) (t : Transaction) :
  annotator_final (l ++ [t]) = snd (annotate_step (annotator_final l) t).
Proof.
  unfold annotator_final. rewrite annotate_from_app. simpl.
  destruct (annotate_step (snd (annotate_from running0 l)) t). reflexivity.
Qed.

(** The annotator clamps in every iteration: whatever the transaction, the
    running totals it leaves are non-negative. *)
Lemma annotate_step_clamped (r : Running) (t : Transaction) :
  0 <= runningQty (snd (annotate_step r t)) /\
  0 <= runningTotalCost (snd (annotate_step r t)).
Proof.
  unfold annotate_step.
  destruct (is_active t); [destruct (type t); [| destruct (gt (runningQty r) 0)] |];
    simpl; split; apply Math_max_0_nonneg.
Qed.

Lemma annotator_final_nonneg (l : list Transaction) :
  0 <= runningQty (annotator_final l) /\
  0 <= runningTotalCost (annotator_final l).
Proof.
  destruct l as [| t l] using rev_ind.
  - split; apply Qle_refl.
  - rewrite annotator_final_snoc. apply annotate_step_clamped.
Qed.

(** C5, as the specification words it, fails on a deactivated sale: the
    running quantity before it is 10, yet the annotator gives it no
    realized figure, because an inactive transaction is skipped. *)
Lemma inactive_sell_has_no_realized_PL :
  let t := deactivate (sell 150 4) in
  type t = SELL /\
  0 < runningQty (annotator_final [buy 100 10]) /\
  exists a,
    nth_error (transactionsWithStats [buy 100 10; t]) 1 = Some a /\
    realizedPL a = None.
Proof.
  cbv zeta. split; [reflexivity | split; [reflexivity |]].
  eexists. split; reflexivity.
Qed.

(** C5 (amended).  For every sequence [pre ++ t :: post], the entry the
    annotator produces for [t] carries, when [t] is an active SELL met
    with a positive running quantity, [realizedPL = quantity * price -
    quantity * avg] where [avg] is the running cost over the running
    quantity before the sale, and [realizedPLPercent = (price - avg) / avg
    * 100] when [avg > 0], else [0]; every BUY, every inactive transaction
    and every SELL met with a running quantity [<= 0] gets [realizedPL =
    null].  In particular [BUY 10 @ 100, SELL 4 @ 150] gives 200 and 50 on
    the sale. *)
Theorem annotator_realized_PL :
  (forall (pre post : list Transaction) (t : Transaction),
      let r := annotator_final pre in
      let avg := runningTotalCost r / runningQty r in
      exists a,
        nth_error (transactionsWithStats (pre ++ t :: post)) (length pre) = Some a /\
        tx a = t /\
        (is_active t = true -> type t = SELL -> 0 < runningQty r ->
         (exists pl, realizedPL a = Some pl /\
                     pl == quantity t * price t - quantity t * avg) /\
         (0 < avg -> realizedPLPercent a == (price t - avg) / avg * 100) /\
         (~ 0 < avg -> realizedPLPercent a == 0)) /\
        (type t = BUY \/ is_active t = false \/ runningQty r <= 0 ->
         realizedPL a = None)) /\
  (exists a pl,
      nth_error (transactionsWithStats [buy 100 10; sell 150 4]) 1 = Some a /\
      realizedPL a = Some pl /\ pl == 200 /\ realizedPLPercent a == 50).
Proof.
  split.
  - intros pre post t r avg.
    exists (fst (annotate_step r t)).
    split; [apply transactionsWithStats_nth |].
    unfold annotate_step. fold avg.
    split.
    { destruct (is_active t); [destruct (type t); [| destruct (gt (runningQty r) 0)] |];
        reflexivity. }
    split.
    + intros Hact Hty Hpos. rewrite Hact, Hty.
      destruct (gt_spec (runningQty r) 0) as [_ | Hn]; [| contradiction].
      cbn [fst realizedPL realizedPLPercent].
      split; [eexists; split; reflexivity |].
      split; intro H; js_case; try contradiction; reflexivity.
    + intros [Hty | [Hact | Hq]].
      * rewrite Hty. destruct (is_active t); reflexivity.
      * rewrite Hact. reflexivity.
      * destruct (gt_spec (runningQty r) 0) as [Hp | _]; [lra |].
        destruct (is_active t); [destruct (type t) |]; reflexivity.
  - eexists. eexists. split; [reflexivity |]. split; [reflexivity |].
    split; reflexivity.
Qed.

Lemma annotator_realized_PL_witness :
  exists a pl,
    nth_error (transactionsWithStats ([buy 100 10] ++ sell 150 4 :: [buy 120 1])) 1
      = Some a /\
    realizedPL a = Some pl /\ pl == 200.
Proof.
  destruct annotator_realized_PL as [Hgen _].
  destruct (Hgen [buy 100 10] [buy 120 1] (sell 150 4))
    as (a & Hnth & _ & Hsell & _).
  destruct Hsell as ((pl & Hpl & Heq) & _);
    [reflexivity | reflexivity | reflexivity |].
  exists a, pl. split; [exact Hnth |]. split; [exact Hpl |].
  rewrite Heq. reflexivity.
Defined.

(** ** Clamping: the annotator against the aggregator *)

(** C2.  The annotator clamps in each iteration ([annotate_step_clamped]);
    the aggregator does not: its loop carries negative totals from one
    iteration to the next and clamps once, after the loop.  After
    [SELL 5 @ 10] the loop state is [(-5, -50)], so the following
    [BUY 10 @ 10] ends at quantity 5 and cost 50, where the annotator,
    which clamped to [(0, 0)] in between, ends at 10 and 100. *)
Theorem summary_clamps_only_after_loop :
  fst (summary_loop [sell 10 5]) == -5 /\
  snd (summary_loop [sell 10 5]) == -50 /\
  runningQty (annotator_final [sell 10 5]) == 0 /\
  runningTotalCost (annotator_final [sell 10 5]) == 0 /\
  totalQuantity (summary [sell 10 5; buy 10 10]) == 5 /\
  totalCost (summary [sell 10 5; buy 10 10]) == 50 /\
  runningQty (annotator_final [sell 10 5; buy 10 10]) == 10 /\
  runningTotalCost (annotator_final [sell 10 5; buy 10 10]) == 100.
Proof. repeat split; reflexivity. Qed.

(** C4.  The two replays disagree once a sale exceeds the holding: on
    [BUY 10 @ 100, SELL 15 @ 100, BUY 10 @ 50] the annotator ends with
    quantity 10 and cost 500, the aggregator returns quantity 5 and
    cost 0. *)
Theorem annotator_and_summary_disagree :
  let l := [buy 100 10; sell 100 15; buy 50 10] in
  runningQty (annotator_final l) == 10 /\
  runningTotalCost (annotator_final l) == 500 /\
  totalQuantity (summary l) == 5 /\
  totalCost (summary l) == 0 /\
  ~ runningQty (annotator_final l) == totalQuantity (summary l) /\
  ~ runningTotalCost (annotator_final l) == totalCost (summary l).
Proof.
  cbv zeta. repeat split; try reflexivity; intro H; vm_compute in H; discriminate.
Qed.

#[local] Instance Math_max_compat :
  Proper (Qeq ==> Qeq ==> Qeq) Math_max.
Proof. intros a a' Ha b b' Hb. unfold Math_max. rewrite Ha, Hb. reflexivity. Qed.

#[local] Instance gt_compat : Proper (Qeq ==> Qeq ==> eq) gt.
Proof. intros a a' Ha b b' Hb. unfold gt. rewrite Ha, Hb. reflexivity. Qed.

Lemma same_totals_active (r : Running) (st : number * number) (t : Transaction) :
  same_totals r st -> is_active t = true ->
  same_totals (snd (annotate_step r t)) (summary_step_clamped st t).
Proof.
  destruct r as [rq rc], st as [sq sc].
  intros (Hq & Hc & Hsq & Hsc) Hact. simpl in Hq, Hc, Hsq, Hsc.
  unfold same_totals, annotate_step, summary_step_clamped, summary_step.
  rewrite Hact. cbn [runningQty runningTotalCost].
  destruct (type t).
  - cbn. rewrite Hq, Hc.
    repeat split; try reflexivity; apply Math_max_0_nonneg.
  - destruct (gt_spec rq 0) as [Hr | Hr], (gt_spec sq 0) as [Hs | Hs];
      try lra; cbn.
    + repeat split; try apply Math_max_0_nonneg.
      * rewrite Hq. reflexivity.
      * apply Math_max_compat; [reflexivity |].
        rewrite Hq, Hc. field. lra.
    + rewrite Hq, Hc.
      repeat split; try reflexivity; apply Math_max_0_nonneg.
Qed.

Lemma same_totals_inactive (r : Running) (st : number * number) (t : Transaction) :
  same_totals r st -> is_active t = false ->
  same_totals (snd (annotate_step r t)) st.
Proof.
  destruct r as [rq rc], st as [sq sc].
  intros (Hq & Hc & Hsq & Hsc) Hact. simpl in Hq, Hc, Hsq, Hsc.
  unfold same_totals, annotate_step. rewrite Hact. cbn.
  rewrite Hq, Hc.
  repeat split; try assumption; apply Math_max_0_pos; assumption.
Qed.

Lemma annotate_from_same_totals (l : list Transaction) :
  forall (r : Running) (st : number * number),
    same_totals r st ->
    same_totals (snd (annotate_from r l))
                (fold_left summary_step_clamped (filter is_active l) st).
Proof.
  induction l as [| t l IH]; intros r st H; simpl.
  - exact H.
  - destruct (annotate_step r t) as [a r'] eqn:Estep.
    assert (Er : r' = snd (annotate_step r t)) by (rewrite Estep; reflexivity).
    destruct (annotate_from r' l) as [rest r''] eqn:Erest.
    assert (Er' : r'' = snd (annotate_from r' l)) by (rewrite Erest; reflexivity).
    cbn [snd]. subst r''.
    destruct (is_active t) eqn:Eact; simpl; apply IH; subst r'.
    + apply same_totals_active; assumption.
    + apply same_totals_inactive; assumption.
Qed.

(** The annotator runs the replay that clamps in every iteration: its final
    running totals are those of [summary_loop_clamped] on the active
    transactions. *)
Lemma annotator_final_clamped_replay (l : list Transaction) :
  runningQty (annotator_final l)
    == fst (summary_loop_clamped (filter is_active l)) /\
  runningTotalCost (annotator_final l)
    == snd (summary_loop_clamped (filter is_active l)).
Proof.
  destruct (annotate_from_same_totals l running0 (0, 0)) as (Hq & Hc & _).
  - repeat split; simpl; lra.
  - split; assumption.
Qed.

Lemma summary_step_compat (a b : number * number) (t : Transaction) :
  eq_totals a b -> eq_totals (summary_step a t) (summary_step b t).
Proof.
  destruct a as [aq ac], b as [bq bc]. intros [Hq Hc]. simpl in Hq, Hc.
  unfold eq_totals, summary_step.
  destruct (type t).
  - cbn. rewrite Hq, Hc. split; reflexivity.
  - destruct (gt_spec aq 0), (gt_spec bq 0); try lra; cbn;
      rewrite Hq, Hc; split; reflexivity.
Qed.

Lemma never_negative_clamped (l : list Transaction) :
  forall a b : number * number,
    eq_totals a b -> never_negative a l ->
    eq_totals (fold_left summary_step l a) (fold_left summary_step_clamped l b).
Proof.
  induction l as [| t l IH]; intros a b Hab Hnn; simpl.
  - exact Hab.
  - destruct Hnn as (Hq & Hc & Hnn).
    apply IH; [| exact Hnn].
    destruct (summary_step_compat a b t Hab) as [Eq Ec].
    unfold eq_totals, summary_step_clamped. cbn [fst snd].
    rewrite <- Eq, <- Ec.
    split; symmetry; apply Math_max_0_pos; assumption.
Qed.

(** Where no sale exceeds the holding, the clamp never acts and the two
    replays end on the same totals: they can only part on an oversold
    position. *)
Lemma annotator_matches_summary_without_oversell (l : list Transaction) :
  never_negative (0, 0) (filter is_active l) ->
  runningQty (annotator_final l) == totalQuantity (summary l) /\
  runningTotalCost (annotator_final l) == totalCost (summary l).
Proof.
  intro Hnn.
  destruct (annotator_final_clamped_replay l) as [Hq Hc].
  assert (Hinit : eq_totals (0, 0) (0, 0)) by (split; reflexivity).
  destruct (never_negative_clamped _ _ _ Hinit Hnn) as [Eq Ec].
  fold (summary_loop (filter is_active l)) in Eq, Ec.
  fold (summary_loop_clamped (filter is_active l)) in Eq, Ec.
  assert (Hq0 : 0 <= fst (summary_loop_clamped (filter is_active l))).
  { rewrite <- Hq. apply annotator_final_nonneg. }
  assert (Hc0 : 0 <= snd (summary_loop_clamped (filter is_active l))).
  { rewrite <- Hc. apply annotator_final_nonneg. }
  rewrite summary_unfold. simpl.
  rewrite Hq, Hc, <- Eq, <- Ec.
  split; symmetry; apply Math_max_0_pos; rewrite Eq || rewrite Ec; assumption.
Qed.

Example annotator_matches_summary_sample :
  let l := [buy 100 10; deactivate (buy 70 3); sell 150 4; buy 200 6] in
  runningQty (annotator_final l) == totalQuantity (summary l) /\
  runningTotalCost (annotator_final l) == totalCost (summary l).
Proof.
  apply annotator_matches_summary_without_oversell.
  simpl. repeat split; unfold Qle; simpl; lia.
Qed.

(** ** The preview engine *)

(** C9.  For a price [p > 0] and a quantity [q > 0] the preview is computed
    from [newQty = qty + q], [newCost = cost + p * q] for a BUY (no
    estimated realized P/L) and from [newQty = max 0 (qty - q)],
    [newCost = newQty * averageCost] for a SELL (estimated realized P/L
    [(p - averageCost) * q]); in both cases [newAvg = newCost / newQty]
    when [newQty > 0], else [0], [diff = newAvg - averageCost] and
    [isFirst] holds exactly when [qty = 0].  A price or quantity that is
    not a number or is [<= 0] gives no preview. *)
Theorem previewData_spec (ty : TransactionType)
    (inputPrice inputQuantity : text) (s : PortfolioSummary) :
  (forall p q : number,
      parseFloat inputPrice = Some p -> parseFloat inputQuantity = Some q ->
      0 < p -> 0 < q ->
      exists (r : Preview) (newQty newCost : number),
        previewData inputPrice inputQuantity ty s = Some r /\
        match ty with
        | BUY =>
            newQty == totalQuantity s + q /\
            newCost == totalCost s + p * q /\
            estimatedRealizedPL r = None
        | SELL =>
            newQty == Qmax 0 (totalQuantity s - q) /\
            newCost == newQty * averageCost s /\
            exists pl, estimatedRealizedPL r = Some pl /\
                       pl == (p - averageCost s) * q
        end /\
        (0 < newQty -> newAvg r == newCost / newQty) /\
        (~ 0 < newQty -> newAvg r == 0) /\
        diff r == newAvg r - averageCost s /\
        (isFirst r = true <-> totalQuantity s == 0)) /\
  (parseFloat inputPrice = None \/ parseFloat inputQuantity = None \/
   (exists p, parseFloat inputPrice = Some p /\ p <= 0) \/
   (exists q, parseFloat inputQuantity = Some q /\ q <= 0) ->
   previewData inputPrice inputQuantity ty s = None).
Proof.
  split.
  - intros p q Ep Eq Hp Hq. unfold previewData. rewrite Ep, Eq.
    destruct (le_spec p 0) as [H | _]; [lra |].
    destruct (le_spec q 0) as [H | _]; [lra |].
    cbn [orb].
    destruct ty.
    + eexists. exists (totalQuantity s + q), (totalCost s + p * q).
      split; [reflexivity |]. cbn.
      split; [repeat split; reflexivity |].
      split; [intro H; js_case; [reflexivity | contradiction] |].
      split; [intro H; js_case; [contradiction | reflexivity] |].
      split; [reflexivity |].
      destruct (strict_eq_spec (totalQuantity s) 0); split; intro; congruence.
    + eexists.
      exists (Math_max 0 (totalQuantity s - q)),
             (Math_max 0 (totalQuantity s - q) * averageCost s).
      split; [reflexivity |]. cbn.
      split.
      { split; [reflexivity |]. split; [reflexivity |].
        eexists; split; reflexivity. }
      split; [intro H; js_case; [reflexivity | contradiction] |].
      split; [intro H; js_case; [contradiction | reflexivity] |].
      split; [reflexivity |].
      destruct (strict_eq_spec (totalQuantity s) 0); split; intro; congruence.
  - unfold previewData.
    intros [E | [E | [(p & E & H) | (q & E & H)]]]; rewrite E.
    + reflexivity.
    + destruct (parseFloat inputPrice); reflexivity.
    + destruct (parseFloat inputQuantity); [| reflexivity].
      destruct (le_spec p 0); [reflexivity | contradiction].
    + destruct (parseFloat inputPrice); [| reflexivity].
      destruct (le_spec q 0); [rewrite orb_true_r; reflexivity | contradiction].
Qed.

Lemma previewData_spec_witness :
  exists r,
    previewData (Numeric 150) (Numeric 4) SELL (summary [buy 100 10]) = Some r /\
    newAvg r == 100 /\
    previewData (Numeric 0) (Numeric 4) SELL (summary [buy 100 10]) = None.
Proof.
  destruct (previewData_spec SELL (Numeric 150) (Numeric 4) (summary [buy 100 10]))
    as [Hsome _].
  destruct (Hsome 150 4) as (r & newQty & newCost & Hr & (HQ & HC & _) & Havg & _);
    [reflexivity | reflexivity | reflexivity | reflexivity |].
  exists r. split; [exact Hr |]. split.
  - assert (Hpos : 0 < newQty) by (rewrite HQ; reflexivity).
    rewrite (Havg Hpos), HC, HQ. reflexivity.
  - apply (previewData_spec SELL (Numeric 0) (Numeric 4) (summary [buy 100 10])).
    right. right. left. exists 0. split; [reflexivity | discriminate].
Defined.

(** ** The simulation engine *)

(** C3, as the specification words it, fails: a price of [0] or [-5]
    against a position of 10 units bought at 100 is simulated like any
    other price. *)
Lemma simulation_accepts_non_positive_price :
  (exists r, simulation (Numeric 0) (summary [buy 100 10]) = Some r /\
             profitOrLossTotal r == -1000 /\ status r = LOSS) /\
  (exists r, simulation (Numeric (-5)) (summary [buy 100 10]) = Some r /\
             profitOrLossTotal r == -1050 /\ status r = LOSS).
Proof.
  split; eexists; (split; [reflexivity | split; reflexivity]).
Qed.

(** C3 (amended).  The simulation returns [null] exactly when the price
    text is empty or does not parse to a number, or the quantity of the
    position is [0]; every numeric price, whatever its sign, is simulated
    when the quantity is not [0]. *)
Theorem simulation_null_iff (simulationPrice : text) (s : PortfolioSummary) :
  simulation simulationPrice s = None <->
  falsy simulationPrice = true \/ parseFloat simulationPrice = None \/
  totalQuantity s == 0.
Proof.
  unfold simulation.
  destruct simulationPrice as [| | x]; cbn [falsy parseFloat orb].
  - split; [intros _; left; reflexivity | reflexivity].
  - split; [intros _; right; left; reflexivity |].
    intros _. destruct (strict_eq (totalQuantity s) 0); reflexivity.
  - destruct (strict_eq_spec (totalQuantity s) 0) as [E | E].
    + split; [intros _; right; right; exact E | reflexivity].
    + split; [discriminate |].
      intros [H | [H | H]]; [discriminate | discriminate | contradiction].
Qed.


(** ** The cost-averaging solver *)





(** ** The history of the selected portfolio *)

Lemma by_timestamp_le (a b : Transaction) :
  reflect (timestamp a <= timestamp b) (le (by_timestamp a b) 0).
Proof.
  unfold by_timestamp.
  destruct (le_spec (timestamp a - timestamp b) 0); constructor; lra.
Qed.

Lemma insert_by_timestamp_perm (t : Transaction) (l : list Transaction) :
  Permutation (insert_by_timestamp t l) (t :: l).
Proof.
  induction l as [| u l IH]; simpl.
  - apply Permutation_refl.
  - destruct (le (by_timestamp t u) 0).
    + apply Permutation_refl.
    + apply perm_trans with (u :: t :: l).
      * apply perm_skip, IH.
      * apply perm_swap.
Qed.

Lemma sort_by_timestamp_perm (l : list Transaction) :
  Permutation (sort_by_timestamp l) l.
Proof.
  induction l as [| t l IH]; simpl.
  - apply perm_nil.
  - apply perm_trans with (t :: sort_by_timestamp l).
    + apply insert_by_timestamp_perm.
    + apply perm_skip, IH.
Qed.

(** An element not later than any of [l] is inserted in front. *)
Lemma insert_by_timestamp_front (t : Transaction) (l : list Transaction) :
  Forall (fun u => timestamp t <= timestamp u) l ->
  insert_by_timestamp t l = t :: l.
Proof.
  intro H. destruct l as [| u l]; simpl; [reflexivity |].
  apply Forall_inv in H.
  destruct (by_timestamp_le t u); [reflexivity | contradiction].
Qed.

Lemma insert_by_timestamp_sorted (t : Transaction) (l : list Transaction) :
  by_time l -> by_time (insert_by_timestamp t l).
Proof.
  unfold by_time. induction l as [| u l IH]; simpl; intro H.
  - constructor; constructor.
  - apply StronglySorted_inv in H. destruct H as [Hl Hu].
    destruct (by_timestamp_le t u) as [Htu | Htu].
    + constructor; [constructor; assumption |].
      constructor; [exact Htu |].
      apply Forall_impl with (2 := Hu). intros v Hv. lra.
    + constructor; [apply IH, Hl |].
      apply Permutation_Forall with (t :: l).
      * symmetry. apply insert_by_timestamp_perm.
      * constructor; [lra | exact Hu].
Qed.

Lemma sort_by_timestamp_sorted (l : list Transaction) :
  by_time (sort_by_timestamp l).
Proof.
  induction l as [| t l IH]; simpl.
  - constructor.
  - apply insert_by_timestamp_sorted, IH.
Qed.

(** A history already in the order of its timestamps is left as it is. *)
Lemma sort_by_timestamp_id (l : list Transaction) :
  by_time l -> sort_by_timestamp l = l.
Proof.
  unfold by_time. induction l as [| t l IH]; simpl; intro H; [reflexivity |].
  apply StronglySorted_inv in H. destruct H as [Hl Ht].
  rewrite (IH Hl). apply insert_by_timestamp_front, Ht.
Qed.

Lemma filter_insert_by_timestamp (P : Transaction -> bool) (t : Transaction)
    (l : list Transaction) :
  by_time l ->
  filter P (insert_by_timestamp t l)
  = if P t then insert_by_timestamp t (filter P l) else filter P l.
Proof.
  unfold by_time. induction l as [| u l IH]; intro H.
  - simpl. destruct (P t); reflexivity.
  - apply StronglySorted_inv in H. destruct H as [Hl Hu].
    cbn [insert_by_timestamp].
    destruct (by_timestamp_le t u) as [Htu | Htu].
    + cbn [filter]. destruct (P t) eqn:EPt; [| reflexivity].
      destruct (P u) eqn:EPu.
      * cbn [insert_by_timestamp].
        destruct (by_timestamp_le t u); [reflexivity | contradiction].
      * symmetry. apply insert_by_timestamp_front.
        apply Forall_forall. intros v Hv.
        apply filter_In in Hv. destruct Hv as [Hv _].
        rewrite Forall_forall in Hu. specialize (Hu v Hv). lra.
    + cbn [filter]. rewrite (IH Hl).
      destruct (P t), (P u); try reflexivity.
      cbn [insert_by_timestamp].
      destruct (by_timestamp_le t u); [contradiction | reflexivity].
Qed.

(** Sorting and filtering commute: [sort] is stable. *)
Lemma filter_sort_by_timestamp (P : Transaction -> bool) (l : list Transaction) :
  filter P (sort_by_timestamp l) = sort_by_timestamp (filter P l).
Proof.
  induction l as [| t l IH]; simpl; [reflexivity |].
  rewrite filter_insert_by_timestamp by apply sort_by_timestamp_sorted.
  rewrite IH. destruct (P t); reflexivity.
Qed.

Lemma map_insert_by_timestamp (f : Transaction -> Transaction)
    (t : Transaction) (l : list Transaction) :
  (forall u, timestamp (f u) = timestamp u) ->
  insert_by_timestamp (f t) (map f l) = map f (insert_by_timestamp t l).
Proof.
  intro Hf. induction l as [| u l IH]; simpl; [reflexivity |].
  unfold by_timestamp. rewrite !Hf. fold (by_timestamp t u).
  destruct (le (by_timestamp t u) 0); [reflexivity |].
  simpl. rewrite IH. reflexivity.
Qed.

Lemma map_sort_by_timestamp (f : Transaction -> Transaction)
    (l : list Transaction) :
  (forall u, timestamp (f u) = timestamp u) ->
  sort_by_timestamp (map f l) = map f (sort_by_timestamp l).
Proof.
  intro Hf. induction l as [| t l IH]; simpl; [reflexivity |].
  rewrite IH. apply map_insert_by_timestamp, Hf.
Qed.

Lemma insert_by_timestamp_snoc (u t : Transaction) (l : list Transaction) :
  timestamp u <= timestamp t ->
  insert_by_timestamp u (l ++ [t]) = insert_by_timestamp u l ++ [t].
Proof.
  intro Hut. induction l as [| v l IH]; simpl.
  - destruct (by_timestamp_le u t); [reflexivity | contradiction].
  - destruct (le (by_timestamp u v) 0); [reflexivity |].
    rewrite IH. reflexivity.
Qed.

Lemma sort_by_timestamp_snoc (t : Transaction) (l : list Transaction) :
  Forall (fun u => timestamp u <= timestamp t) l ->
  sort_by_timestamp (l ++ [t]) = sort_by_timestamp l ++ [t].
Proof.
  induction l as [| u l IH]; simpl; intro H; [reflexivity |].
  apply Forall_cons_iff in H. destruct H as [Hu Hl].
  rewrite (IH Hl). apply insert_by_timestamp_snoc, Hu.
Qed.

Lemma has_symbol_eq (a : string) (t : Transaction) :
  has_symbol a t = true <-> symbol t = a.
Proof. unfold has_symbol. apply String.eqb_eq. Qed.

(** The history of the selected portfolio is in the order of its
    timestamps and holds exactly the stored transactions of that symbol,
    each as often as it is stored. *)
Theorem currentTransactions_sorted_selection (transactions : list Transaction)
    (activeSymbol : string) :
  by_time (currentTransactions transactions activeSymbol) /\
  Permutation (currentTransactions transactions activeSymbol)
              (filter (has_symbol activeSymbol) transactions) /\
  (forall t, In t (currentTransactions transactions activeSymbol)
             <-> In t transactions /\ symbol t = activeSymbol).
Proof.
  unfold currentTransactions. split; [apply sort_by_timestamp_sorted |].
  split; [apply sort_by_timestamp_perm |].
  intro t. split.
  - intro H. apply (Permutation_in _ (sort_by_timestamp_perm _)) in H.
    apply filter_In in H. destruct H as [H1 H2].
    split; [exact H1 | apply has_symbol_eq, H2].
  - intros [H1 H2].
    apply (Permutation_in _ (Permutation_sym (sort_by_timestamp_perm _))).
    apply filter_In. split; [exact H1 | apply has_symbol_eq, H2].
Qed.

(** Stability: transactions of the selected portfolio that carry the same
    timestamp appear in the history in the order in which they are
    stored. *)
Theorem currentTransactions_stable (transactions : list Transaction)
    (activeSymbol : string) (c : number) :
  filter (fun t => strict_eq (timestamp t) c)
         (currentTransactions transactions activeSymbol)
  = filter (fun t => strict_eq (timestamp t) c)
           (filter (has_symbol activeSymbol) transactions).
Proof.
  unfold currentTransactions. rewrite filter_sort_by_timestamp.
  apply sort_by_timestamp_id.
  unfold by_time.
  induction (filter (has_symbol activeSymbol) transactions) as [| t l IH];
    simpl; [constructor |].
  destruct (strict_eq_spec (timestamp t) c) as [Et | Et]; [| exact IH].
  constructor; [exact IH |].
  apply Forall_forall. intros u Hu. apply filter_In in Hu.
  destruct Hu as [_ Hu].
  destruct (strict_eq_spec (timestamp u) c) as [Eu | Eu]; [| discriminate].
  rewrite Et, Eu. apply Qle_refl.
Qed.

(** ** Further properties of the aggregator *)

(** An inactive transaction has no part in the replay: the position is the
    one computed without it, and so are the running totals the annotator
    ends on. *)
Theorem inactive_transaction_excluded (pre post : list Transaction)
    (t : Transaction) :
  is_active t = false ->
  summary (pre ++ t :: post) = summary (pre ++ post) /\
  runningQty (annotator_final (pre ++ t :: post))
    == runningQty (annotator_final (pre ++ post)) /\
  runningTotalCost (annotator_final (pre ++ t :: post))
    == runningTotalCost (annotator_final (pre ++ post)).
Proof.
  intro H.
  assert (E : filter is_active (pre ++ t :: post) = filter is_active (pre ++ post)).
  { rewrite !filter_app. simpl. rewrite H. reflexivity. }
  split; [unfold summary; rewrite E; reflexivity |].
  destruct (annotator_final_clamped_replay (pre ++ t :: post)) as [Hq Hc].
  destruct (annotator_final_clamped_replay (pre ++ post)) as [Hq' Hc'].
  rewrite E in Hq, Hc.
  split; [rewrite Hq, Hq' | rewrite Hc, Hc']; reflexivity.
Qed.

Lemma inactive_transaction_excluded_witness :
  summary ([buy 100 10] ++ deactivate (sell 150 4) :: [buy 200 10])
  = summary ([buy 100 10] ++ [buy 200 10]).
Proof.
  apply (inactive_transaction_excluded [buy 100 10] [buy 200 10]
           (deactivate (sell 150 4))).
  reflexivity.
Defined.

(** ** Further properties of the annotator *)

Lemma annotate_step_tx (r : Running) (t : Transaction) :
  tx (fst (annotate_step r t)) = t.
Proof.
  unfold annotate_step.
  destruct (is_active t); [destruct (type t); [| destruct (gt (runningQty r) 0)] |];
    reflexivity.
Qed.

Lemma annotate_from_tx (l : list Transaction) :
  forall r : Running, map tx (fst (annotate_from r l)) = l.
Proof.
  induction l as [| t l IH]; intro r; simpl; [reflexivity |].
  destruct (annotate_step r t) as [a r'] eqn:E.
  specialize (IH r'). destruct (annotate_from r' l) as [rest r''].
  simpl in *. rewrite IH.
  assert (Ha : a = fst (annotate_step r t)) by (rewrite E; reflexivity).
  rewrite Ha, annotate_step_tx. reflexivity.
Qed.

(** The annotated view has one row per transaction of the history, in the
    same order and carrying the transaction unchanged, whether it is
    active or not. *)
Theorem transactionsWithStats_rows (currentTransactions : list Transaction) :
  map tx (transactionsWithStats currentTransactions) = currentTransactions /\
  length (transactionsWithStats currentTransactions) = length currentTransactions.
Proof.
  split.
  - apply annotate_from_tx.
  - apply annotate_from_length.
Qed.

(** ** The preview against the aggregator *)

Lemma summary_snoc (txs : list Transaction) (t : Transaction) :
  is_active t = true ->
  summary (txs ++ [t])
  = summary_finish (summary_step (summary_loop (filter is_active txs)) t).
Proof.
  intro Hact. rewrite summary_unfold, filter_app. simpl filter.
  rewrite Hact, summary_loop_snoc. reflexivity.
Qed.

Lemma preview_matches_appended (txs : list Transaction) (t : Transaction) :
  is_active t = true -> 0 < price t -> 0 < quantity t ->
  (type t = BUY ->
   0 <= fst (summary_loop (filter is_active txs)) /\
   0 <= snd (summary_loop (filter is_active txs))) ->
  exists r,
    previewData (Numeric (price t)) (Numeric (quantity t)) (type t) (summary txs)
      = Some r /\
    newAvg r == averageCost (summary (txs ++ [t])).
Proof.
  intros Hact Hp Hq Hbuy.
  rewrite (summary_snoc _ _ Hact), summary_unfold.
  destruct (summary_loop (filter is_active txs)) as [rq rc].
  unfold previewData. cbn [parseFloat].
  destruct (le_spec (price t) 0) as [H | _]; [lra |].
  destruct (le_spec (quantity t) 0) as [H | _]; [lra |].
  cbn [orb]. unfold summary_step, summary_finish.
  cbn [fst snd totalQuantity totalCost averageCost].
  destruct (type t).
  - destruct Hbuy as [Hrq Hrc]; [reflexivity |]. cbn [fst snd] in Hrq, Hrc.
    eexists. split; [reflexivity |]. cbn [newAvg fst snd].
    assert (Ha : 0 <= price t * quantity t) by (apply Qmult_le_0_compat; lra).
    pose proof (Math_max_0_pos rq Hrq) as Eq.
    pose proof (Math_max_0_pos rc Hrc) as Ec.
    assert (Eq' : Math_max 0 (rq + quantity t) == rq + quantity t)
      by (apply Math_max_0_pos; lra).
    assert (Ec' : Math_max 0 (rc + price t * quantity t)
                  == rc + price t * quantity t)
      by (apply Math_max_0_pos; lra).
    destruct (gt_spec (Math_max 0 rq + quantity t) 0) as [_ | Hn]; [| lra].
    destruct (gt_spec (Math_max 0 (rq + quantity t)) 0) as [_ | Hn]; [| lra].
    rewrite Eq, Ec, Eq', Ec'. reflexivity.
  - eexists. split; [reflexivity |]. cbn [newAvg fst snd].
    destruct (gt_spec rq 0) as [Hpos | Hnpos]; cbn [fst snd].
    + pose proof (Math_max_0_pos rq (Qlt_le_weak _ _ Hpos)) as Eq.
      destruct (gt_spec (Math_max 0 rq) 0) as [_ | Hn]; [| lra].
      assert (Eqq : Math_max 0 (Math_max 0 rq - quantity t)
                    == Math_max 0 (rq - quantity t))
        by (rewrite Eq; reflexivity).
      destruct (Math_max_0_cases (rq - quantity t)) as [[Hrem Er] | [Hrem Er]].
      * destruct (gt_spec (Math_max 0 (Math_max 0 rq - quantity t)) 0) as [Hg | Hg];
          destruct (gt_spec (Math_max 0 (rq - quantity t)) 0) as [Hg' | Hg'];
          try lra.
        rewrite Eqq, Er, Eq.
        destruct (Math_max_0_cases rc) as [[Hrc Ec] | [Hrc Ec]]; rewrite Ec.
        -- assert (Hc' : 0 <= (rq - quantity t) * (rc / rq)).
           { apply Qmult_le_0_compat; [lra |].
             apply Qle_shift_div_l; lra. }
           rewrite (Math_max_0_pos _ Hc'). reflexivity.
        -- assert (Hc' : (rq - quantity t) * (rc / rq) <= 0).
           { assert (Hneg : 0 <= - (rc / rq)).
             { assert (rc / rq <= 0) by (apply Qle_shift_div_r; lra). lra. }
             assert (0 <= (rq - quantity t) * - (rc / rq))
               by (apply Qmult_le_0_compat; lra).
             lra. }
           rewrite (Math_max_0_neg _ Hc'). field. lra.
      * destruct (gt_spec (Math_max 0 (Math_max 0 rq - quantity t)) 0) as [Hg | Hg];
          destruct (gt_spec (Math_max 0 (rq - quantity t)) 0) as [Hg' | Hg'];
          lra.
    + assert (Hle : rq <= 0) by lra.
      pose proof (Math_max_0_neg rq Hle) as Eq.
      assert (E1 : Math_max 0 (Math_max 0 rq - quantity t) == 0)
        by (apply Math_max_0_neg; lra).
      assert (E2 : Math_max 0 (rq - quantity t) == 0)
        by (apply Math_max_0_neg; lra).
      destruct (gt_spec (Math_max 0 (Math_max 0 rq - quantity t)) 0) as [Hg | _];
        [lra |].
      destruct (gt_spec (Math_max 0 (rq - quantity t)) 0) as [Hg | _];
        [lra | reflexivity].
Qed.

(** The preview announces the average cost the position will have: once
    the previewed transaction is appended to the history, the aggregator
    returns [newAvg].  For a SELL this holds on every history; for a BUY
    it needs the loop of the aggregator to stand on non-negative totals,
    which is the case unless the history is oversold. *)
Theorem preview_announces_new_average (txs : list Transaction)
    (t : Transaction) :
  is_active t = true -> 0 < price t -> 0 < quantity t ->
  (type t = BUY ->
   0 <= fst (summary_loop (filter is_active txs)) /\
   0 <= snd (summary_loop (filter is_active txs))) ->
  exists r,
    previewData (Numeric (price t)) (Numeric (quantity t)) (type t) (summary txs)
      = Some r /\
    newAvg r == averageCost (summary (txs ++ [t])).
Proof. exact (preview_matches_appended txs t). Qed.

Lemma preview_announces_new_average_witness :
  exists r,
    previewData (Numeric 200) (Numeric 10) BUY (summary [buy 100 10; sell 150 4])
      = Some r /\
    newAvg r == averageCost (summary ([buy 100 10; sell 150 4] ++ [buy 200 10])).
Proof.
  apply (preview_announces_new_average [buy 100 10; sell 150 4] (buy 200 10));
    [reflexivity | reflexivity | reflexivity |].
  intros _. split; unfold Qle; simpl; lia.
Defined.

(** ** The list of portfolios *)

Lemma includes_In (l : list string) (name : string) :
  includes l name = true <-> In name l.
Proof.
  unfold includes. rewrite existsb_exists. split.
  - intros (x & Hx & E). apply String.eqb_eq in E. subst x. exact Hx.
  - intro H. exists name. split; [exact H | apply String.eqb_refl].
Qed.

Lemma includes_false (l : list string) (name : string) :
  includes l name = false <-> ~ In name l.
Proof.
  rewrite <- includes_In. destruct (includes l name); split; intro H;
    try reflexivity; try discriminate; try (intro; discriminate).
  exfalso. apply H. reflexivity.
Qed.

Lemma rename_in_list_In (a n x : string) (l : list string) :
  In x (map (fun s => if String.eqb s a then n else s) l) ->
  (x = n /\ In a l) \/ (In x l /\ x <> a).
Proof.
  induction l as [| s l IH]; simpl; [tauto |].
  intros [H | H].
  - destruct (String.eqb_spec s a) as [E | E].
    + left. split; [symmetry; exact H | left; exact E].
    + right. subst x. split; [left; reflexivity | exact E].
  - destruct (IH H) as [[E1 E2] | [E1 E2]]; [left | right]; tauto.
Qed.

Lemma rename_in_list_NoDup (a n : string) (l : list string) :
  NoDup l -> ~ In n l ->
  NoDup (map (fun s => if String.eqb s a then n else s) l).
Proof.
  induction l as [| s l IH]; simpl; intros Hnd Hn; [constructor |].
  apply NoDup_cons_iff in Hnd. destruct Hnd as [Hs Hnd].
  constructor; [| apply IH; tauto].
  intro H. apply rename_in_list_In in H.
  destruct (String.eqb_spec s a) as [E | E].
  - subst s. destruct H as [[_ H] | [H _]]; [contradiction | tauto].
  - destruct H as [[H _] | [H _]]; [subst s; tauto | contradiction].
Qed.

Lemma rename_in_list_new (a n : string) (l : list string) :
  In a l -> In n (map (fun s => if String.eqb s a then n else s) l).
Proof.
  intro H. apply in_map_iff. exists a. split; [| exact H].
  rewrite String.eqb_refl. reflexivity.
Qed.

Lemma filter_other_nonempty (a : string) (l : list string) :
  NoDup l -> (1 < length l)%nat ->
  filter (fun s => negb (String.eqb s a)) l <> [].
Proof.
  intros Hnd Hlen.
  destruct l as [| x [| y l]]; simpl in Hlen; try lia.
  apply NoDup_cons_iff in Hnd. destruct Hnd as [Hx _].
  cbn [filter].
  destruct (String.eqb_spec x a) as [Ex | Ex]; cbn [negb]; [| discriminate].
  destruct (String.eqb_spec y a) as [Ey | Ey]; cbn [negb]; [| discriminate].
  exfalso. apply Hx. left. congruence.
Qed.

Section PortfolioList.

Variable toUpperCase : string -> string.
Variable trim : string -> string.

(** The list of portfolios keeps its shape: without duplicate and holding
    the selected portfolio, it stays so when a portfolio is added,
    renamed, selected from the list or deleted; a deletion out of such a
    list always leaves a selected portfolio. *)
Theorem listed_preserved (st : AppState) :
  listed st ->
  listed (handleAddStock toUpperCase trim st) /\
  listed (handleRenameStock toUpperCase trim st) /\
  (forall stock, In stock (stockList st) -> listed (selectStock stock st)) /\
  (forall confirmed,
      exists st', deleteCurrentStock confirmed st = Some st' /\ listed st').
Proof.
  intros [Hnd Hin]. unfold listed. split; [| split; [| split]].
  - unfold handleAddStock.
    destruct (truthy (trim (newStockName st))); [| split; assumption].
    set (name := trim (toUpperCase (newStockName st))).
    destruct (includes (stockList st) name) eqn:E; cbn.
    + apply includes_In in E. split; assumption.
    + apply includes_false in E. split.
      * apply NoDup_app; [exact Hnd | repeat constructor; simpl; tauto |].
        intros x Hx [Hy | []]. subst x. contradiction.
      * apply in_or_app. right. left. reflexivity.
  - unfold handleRenameStock.
    set (newName := trim (toUpperCase (renameValue st))).
    destruct (truthy newName); cbn [negb]; [| split; assumption].
    destruct (String.eqb newName (activeSymbol st)); [split; assumption |].
    destruct (includes (stockList st) newName) eqn:E; [split; assumption |].
    apply includes_false in E. cbn. split.
    + apply rename_in_list_NoDup; assumption.
    + apply rename_in_list_new, Hin.
  - intros stock Hstock. cbn. split; assumption.
  - intro confirmed. unfold deleteCurrentStock.
    destruct (Nat.leb_spec (length (stockList st)) 1) as [Hlen | Hlen];
      [exists st; split; [reflexivity | split; assumption] |].
    destruct confirmed; [| exists st; split; [reflexivity | split; assumption]].
    pose proof (filter_other_nonempty (activeSymbol st) _ Hnd Hlen) as Hne.
    pose proof (NoDup_filter (fun s => negb (String.eqb s (activeSymbol st))) Hnd)
      as Hnd'.
    destruct (filter (fun s => negb (String.eqb s (activeSymbol st)))
                     (stockList st)) as [| first rest]; [contradiction |].
    eexists. split; [reflexivity |]. cbn.
    split; [exact Hnd' | left; reflexivity].
Qed.

End PortfolioList.

(** ** Renaming a portfolio *)

Lemma same_trade_active (f : Transaction -> Transaction) (t : Transaction) :
  same_trade f -> is_active (f t) = is_active t.
Proof.
  intro Hf. unfold is_active. destruct (Hf t) as (E & _). rewrite E. reflexivity.
Qed.

Lemma filter_active_map (f : Transaction -> Transaction) (l : list Transaction) :
  same_trade f ->
  filter is_active (map f l) = map f (filter is_active l).
Proof.
  intro Hf. induction l as [| t l IH]; simpl; [reflexivity |].
  rewrite (same_trade_active f t Hf), IH.
  destruct (is_active t); reflexivity.
Qed.

Lemma summary_step_same_trade (f : Transaction -> Transaction)
    (st : number * number) (t : Transaction) :
  same_trade f -> summary_step st (f t) = summary_step st t.
Proof.
  intro Hf. destruct (Hf t) as (_ & Ety & Ep & Eq).
  destruct st as [rq rc]. unfold summary_step. rewrite Ety, Ep, Eq. reflexivity.
Qed.

Lemma summary_same_trade (f : Transaction -> Transaction) (l : list Transaction) :
  same_trade f -> summary (map f l) = summary l.
Proof.
  intro Hf. rewrite !summary_unfold, (filter_active_map f l Hf).
  f_equal. unfold summary_loop.
  generalize (0, 0) at 1 2. 
  induction (filter is_active l) as [| t m IH]; intro st; simpl; [reflexivity |].
  rewrite (summary_step_same_trade f st t Hf). apply IH.
Qed.

Lemma with_symbol_same_trade (n : string) : same_trade (with_symbol n).
Proof. intro t. repeat split; reflexivity. Qed.

Lemma annotate_step_same_trade (f : Transaction -> Transaction)
    (r : Running) (t : Transaction) :
  same_trade f ->
  realizedPL (fst (annotate_step r (f t))) = realizedPL (fst (annotate_step r t)) /\
  realizedPLPercent (fst (annotate_step r (f t)))
    = realizedPLPercent (fst (annotate_step r t)) /\
  snd (annotate_step r (f t)) = snd (annotate_step r t).
Proof.
  intro Hf. destruct (Hf t) as (_ & Ety & Ep & Eq).
  unfold annotate_step.
  rewrite (same_trade_active f t Hf), Ety, Ep, Eq.
  destruct (is_active t); [destruct (type t); [| destruct (gt (runningQty r) 0)] |];
    repeat split; reflexivity.
Qed.

Lemma annotate_from_same_trade (f : Transaction -> Transaction)
    (l : list Transaction) :
  same_trade f ->
  forall r : Running,
    map realizedPL (fst (annotate_from r (map f l)))
      = map realizedPL (fst (annotate_from r l)) /\
    map realizedPLPercent (fst (annotate_from r (map f l)))
      = map realizedPLPercent (fst (annotate_from r l)).
Proof.
  intro Hf. induction l as [| t l IH]; intro r; simpl; [split; reflexivity |].
  destruct (annotate_step_same_trade f r t Hf) as (E1 & E2 & E3).
  destruct (annotate_step r (f t)) as [a1 r1].
  destruct (annotate_step r t) as [a2 r2].
  cbn [fst snd] in E1, E2, E3. subst r1.
  destruct (IH r2) as [IH1 IH2].
  destruct (annotate_from r2 (map f l)) as [rest1 r1'].
  destruct (annotate_from r2 l) as [rest2 r2'].
  cbn [fst map] in *. rewrite E1, E2, IH1, IH2. split; reflexivity.
Qed.

Lemma rename_selects_renamed (a n : string) (l : list Transaction) :
  Forall (fun t => symbol t <> n) l ->
  filter (has_symbol n)
         (map (fun t => if has_symbol a t then with_symbol n t else t) l)
  = map (with_symbol n) (filter (has_symbol a) l).
Proof.
  induction l as [| t l IH]; intro H; [reflexivity |].
  apply Forall_cons_iff in H. destruct H as [Ht Hl].
  cbn [map filter].
  destruct (has_symbol a t) eqn:Ea.
  - assert (E : has_symbol n (with_symbol n t) = true).
    { unfold has_symbol. cbn [symbol with_symbol]. apply String.eqb_refl. }
    rewrite E. cbn [map]. rewrite (IH Hl). reflexivity.
  - destruct (has_symbol n t) eqn:En; [| exact (IH Hl)].
    apply has_symbol_eq in En. contradiction.
Qed.

Lemma rename_leaves_others (a n s : string) (l : list Transaction) :
  s <> a -> s <> n ->
  filter (has_symbol s)
         (map (fun t => if has_symbol a t then with_symbol n t else t) l)
  = filter (has_symbol s) l.
Proof.
  intros Hsa Hsn. induction l as [| t l IH]; [reflexivity |].
  cbn [map filter]. rewrite IH.
  destruct (has_symbol a t) eqn:Ea; [| reflexivity].
  apply has_symbol_eq in Ea.
  assert (E1 : has_symbol s (with_symbol n t) = false).
  { unfold has_symbol. cbn [symbol with_symbol].
    apply String.eqb_neq. congruence. }
  assert (E2 : has_symbol s t = false).
  { unfold has_symbol. apply String.eqb_neq. congruence. }
  rewrite E1, E2. reflexivity.
Qed.

Section Rename.

Variable toUpperCase : string -> string.
Variable trim : string -> string.

(** Renaming a portfolio to a fresh, non-empty name carries its history
    over: the new name is selected, its history is the old one with the
    symbol rewritten, the position and the realized figures are the same,
    every other portfolio keeps its history, and every transaction still
    belongs to a portfolio of the list.  An empty name, the current name
    or the name of another portfolio of the list leaves the list, the
    selection and the transactions as they are. *)
Theorem rename_carries_history (st : AppState) :
  let newName := trim (toUpperCase (renameValue st)) in
  let st' := handleRenameStock toUpperCase trim st in
  (owned st -> truthy newName = true -> newName <> activeSymbol st ->
   ~ In newName (stockList st) ->
   activeSymbol st' = newName /\
   currentOf st' = map (with_symbol newName) (currentOf st) /\
   summaryOf st' = summaryOf st /\
   map realizedPL (transactionsWithStats (currentOf st'))
     = map realizedPL (transactionsWithStats (currentOf st)) /\
   (forall s, s <> activeSymbol st -> s <> newName ->
              currentTransactions (transactions st') s
              = currentTransactions (transactions st) s) /\
   owned st') /\
  (truthy newName = false \/ newName = activeSymbol st \/
   In newName (stockList st) ->
   stockList st' = stockList st /\ activeSymbol st' = activeSymbol st /\
   transactions st' = transactions st).
Proof.
  intros newName st'. subst st'. unfold handleRenameStock. fold newName.
  split.
  - intros Hown Htr Hne Hnew.
    rewrite Htr. cbn [negb].
    destruct (String.eqb_spec newName (activeSymbol st)) as [E | _];
      [contradiction |].
    destruct (includes (stockList st) newName) eqn:Einc;
      [apply includes_In in Einc; contradiction |].
    assert (Hfresh : Forall (fun t => symbol t <> newName) (transactions st)).
    { apply Forall_impl with (2 := Hown). intros t Ht E.
      rewrite E in Ht. contradiction. }
    assert (Ecur :
      currentTransactions
        (map (fun t => if has_symbol (activeSymbol st) t
                       then with_symbol newName t else t) (transactions st))
        newName
      = map (with_symbol newName) (currentOf st)).
    { unfold currentOf, currentTransactions.
      rewrite (rename_selects_renamed _ _ _ Hfresh).
      apply map_sort_by_timestamp. reflexivity. }
    match goal with |- activeSymbol ?s = _ /\ _ => set (st' := s) end.
    assert (Ea : activeSymbol st' = newName) by reflexivity.
    assert (Et : transactions st'
                 = map (fun t => if has_symbol (activeSymbol st) t
                                 then with_symbol newName t else t)
                       (transactions st)) by reflexivity.
    assert (Es : stockList st'
                 = map (fun s => if String.eqb s (activeSymbol st)
                                 then newName else s) (stockList st))
      by reflexivity.
    clearbody st'.
    unfold summaryOf, currentOf, owned. rewrite Ea, Et, Es, Ecur.
    split; [reflexivity |].
    split; [reflexivity |].
    split; [apply summary_same_trade, with_symbol_same_trade |].
    split.
    { unfold transactionsWithStats.
      apply annotate_from_same_trade, with_symbol_same_trade. }
    split.
    { intros s Hsa Hsn. unfold currentTransactions.
      rewrite (rename_leaves_others _ _ _ _ Hsa Hsn). reflexivity. }
    apply Forall_forall. intros t Ht. apply in_map_iff in Ht.
    destruct Ht as (u & Eu & Hu).
    unfold owned in Hown. rewrite Forall_forall in Hown.
    specialize (Hown u Hu).
    apply in_map_iff.
    destruct (has_symbol (activeSymbol st) u) eqn:Eau; subst t.
    + exists (symbol u). apply has_symbol_eq in Eau. rewrite Eau.
      rewrite String.eqb_refl. split; [reflexivity | rewrite <- Eau; exact Hown].
    + exists (symbol u). split; [| exact Hown].
      unfold has_symbol in Eau. rewrite Eau. reflexivity.
  - intros [H | [H | H]].
    + rewrite H. cbn. repeat split; reflexivity.
    + destruct (truthy newName); cbn [negb]; [| repeat split; reflexivity].
      rewrite H, String.eqb_refl. repeat split; reflexivity.
    + destruct (truthy newName); cbn [negb]; [| repeat split; reflexivity].
      destruct (String.eqb newName (activeSymbol st)); [repeat split; reflexivity |].
      apply includes_In in H. rewrite H. repeat split; reflexivity.
Qed.

End Rename.

(** ** Adding a transaction *)

Lemma parseFloat_Some (s : text) (x : number) :
  parseFloat s = Some x -> s = Numeric x.
Proof. destruct s; simpl; intro H; [discriminate | discriminate | congruence]. Qed.

Lemma currentTransactions_snoc (txs : list Transaction) (a : string)
    (t : Transaction) :
  symbol t = a -> Forall (fun u => timestamp u <= timestamp t) txs ->
  currentTransactions (txs ++ [t]) a = currentTransactions txs a ++ [t].
Proof.
  intros Hs Hts. unfold currentTransactions.
  rewrite filter_app. cbn [filter].
  assert (E : has_symbol a t = true) by (apply has_symbol_eq, Hs).
  rewrite E. apply sort_by_timestamp_snoc.
  apply Forall_forall. intros u Hu. apply filter_In in Hu.
  rewrite Forall_forall in Hts. apply Hts. tauto.
Qed.

(** A transaction is stored exactly when the form shows a preview.  With
    no preview the state is left as it is.  With a preview, and the clock
    not behind the stored timestamps, the new transaction comes last in
    the history of the selected portfolio, the form is cleared, and the
    average cost of the new position is the [newAvg] that was previewed
    (for a BUY, provided the aggregator's loop stands on non-negative
    totals). *)
Theorem add_transaction_follows_preview (newId : string) (now : number)
    (st : AppState) :
  let st' := handleAddTransaction newId now st in
  (previewOf st = None -> st' = st) /\
  (forall r : Preview,
      previewOf st = Some r ->
      Forall (fun u => timestamp u <= now) (transactions st) ->
      (transactionType st = BUY ->
       0 <= fst (summary_loop (filter is_active (currentOf st))) /\
       0 <= snd (summary_loop (filter is_active (currentOf st)))) ->
      exists t : Transaction,
        currentOf st' = currentOf st ++ [t] /\
        id t = newId /\ type t = transactionType st /\ is_active t = true /\
        parseFloat (inputPrice st) = Some (price t) /\
        parseFloat (inputQuantity st) = Some (quantity t) /\
        averageCost (summaryOf st') == newAvg r /\
        inputPrice st' = Empty /\ inputQuantity st' = Empty).
Proof.
  intro st'. subst st'. unfold previewOf, handleAddTransaction.
  split.
  - unfold previewData.
    destruct (parseFloat (inputPrice st)) as [p |]; [| reflexivity].
    destruct (parseFloat (inputQuantity st)) as [q |]; [| reflexivity].
    destruct (le p 0 || le q 0); [reflexivity |].
    destruct (transactionType st); discriminate.
  - intros r Hprev Hnow Hbuy.
    destruct (parseFloat (inputPrice st)) as [p |] eqn:Ep;
      [| unfold previewData in Hprev; rewrite Ep in Hprev; discriminate].
    destruct (parseFloat (inputQuantity st)) as [q |] eqn:Eq;
      [| unfold previewData in Hprev; rewrite Ep, Eq in Hprev; discriminate].
    rewrite (parseFloat_Some _ _ Ep), (parseFloat_Some _ _ Eq) in Hprev.
    destruct (le_spec p 0) as [Hp | Hp];
      [unfold previewData in Hprev; cbn [parseFloat] in Hprev;
       destruct (le_spec p 0); [discriminate | contradiction] |].
    destruct (le_spec q 0) as [Hq | Hq];
      [unfold previewData in Hprev; cbn [parseFloat] in Hprev;
       destruct (le_spec p 0); [contradiction |];
       destruct (le_spec q 0); [discriminate | contradiction] |].
    cbn [orb].
    set (t := mkTransaction newId (activeSymbol st) p q now (Some true)
                            (transactionType st)).
    exists t.
    match goal with |- currentOf ?s = _ /\ _ => set (st' := s) end.
    assert (Ea : activeSymbol st' = activeSymbol st).
    { subst st'. destruct (transactionType st); [destruct (falsy _) |]; reflexivity. }
    assert (Et : transactions st' = transactions st ++ [t]).
    { subst st'. destruct (transactionType st); [destruct (falsy _) |]; reflexivity. }
    assert (Eip : inputPrice st' = Empty).
    { subst st'. destruct (transactionType st); [destruct (falsy _) |]; reflexivity. }
    assert (Eiq : inputQuantity st' = Empty).
    { subst st'. destruct (transactionType st); [destruct (falsy _) |]; reflexivity. }
    clearbody st'.
    assert (Ecur : currentOf st' = currentOf st ++ [t]).
    { unfold currentOf. rewrite Ea, Et.
      apply currentTransactions_snoc; [reflexivity | exact Hnow]. }
    split; [exact Ecur |].
    repeat (split; [reflexivity |]).
    split; [| split; assumption].
    unfold summaryOf. rewrite Ecur.
    destruct (preview_matches_appended (currentOf st) t) as (r' & Hr' & Havg);
      [reflexivity | cbn; lra | cbn; lra | exact Hbuy |].
    cbn [price quantity type t] in Hr'. unfold summaryOf in Hprev.
    rewrite Hprev in Hr'. injection Hr' as Hr'. subst r'.
    symmetry. exact Havg.
Qed.

(** ** Hiding and removing a transaction *)

Lemma summary_of_history (txs : list Transaction) (a : string) :
  summary (currentTransactions txs a)
  = summary_finish
      (summary_loop
         (sort_by_timestamp (filter is_active (filter (has_symbol a) txs)))).
Proof.
  rewrite summary_unfold. unfold currentTransactions.
  rewrite filter_sort_by_timestamp. reflexivity.
Qed.

Lemma has_symbol_flipped (a : string) (t : Transaction) :
  has_symbol a (with_flipped_flag t) = has_symbol a t.
Proof. reflexivity. Qed.

Lemma hidden_like_removed (id0 a : string) (l : list Transaction) :
  (forall t, In t l -> id t = id0 -> isActive t = Some true) ->
  filter is_active
    (filter (has_symbol a)
       (map (fun t => if String.eqb (id t) id0 then with_flipped_flag t else t) l))
  = filter is_active
      (filter (has_symbol a)
         (filter (fun t => negb (String.eqb (id t) id0)) l)).
Proof.
  induction l as [| t l IH]; intro Hflag; [reflexivity |].
  assert (IH' := IH (fun u Hu => Hflag u (or_intror Hu))). clear IH.
  cbn [map filter].
  destruct (String.eqb_spec (id t) id0) as [E | E]; cbn [negb filter].
  - rewrite has_symbol_flipped.
    destruct (has_symbol a t); [| exact IH'].
    cbn [filter].
    assert (Ht : is_active (with_flipped_flag t) = false).
    { unfold is_active. cbn [isActive with_flipped_flag].
      rewrite (Hflag t (or_introl eq_refl) E). reflexivity. }
    rewrite Ht. exact IH'.
  - destruct (has_symbol a t); [| exact IH'].
    cbn [filter]. rewrite IH'. reflexivity.
Qed.

(** Hiding an active transaction changes the position exactly as removing
    it would. *)
Theorem hiding_is_removal_for_summary (id0 : string) (st : AppState) :
  (forall t, In t (transactions st) -> id t = id0 -> isActive t = Some true) ->
  summaryOf (toggleTransactionStatus id0 st)
  = summaryOf (removeTransaction id0 st).
Proof.
  intro Hflag. unfold summaryOf, currentOf.
  cbn [toggleTransactionStatus removeTransaction setTransactions
       transactions activeSymbol].
  rewrite !summary_of_history.
  rewrite (hidden_like_removed _ _ _ Hflag). reflexivity.
Qed.

(** Hiding a transaction twice restores the stored transactions, provided
    the transactions with that identifier carry the flag. *)
Theorem toggle_twice (id0 : string) (st : AppState) :
  (forall t, In t (transactions st) -> id t = id0 -> isActive t <> None) ->
  transactions (toggleTransactionStatus id0 (toggleTransactionStatus id0 st))
  = transactions st.
Proof.
  intro Hflag.
  cbn [toggleTransactionStatus setTransactions transactions].
  rewrite map_map.
  induction (transactions st) as [| t l IH]; [reflexivity |].
  cbn [map].
  rewrite IH by (intros u Hu; apply Hflag; right; exact Hu).
  f_equal.
  destruct (String.eqb_spec (id t) id0) as [E | E].
  - cbn [id with_flipped_flag]. rewrite E, String.eqb_refl.
    assert (Ht : isActive t <> None) by (apply Hflag; [left; reflexivity | exact E]).
    destruct t as [i s p q ts [[|] |] ty]; cbn; try reflexivity.
    contradiction.
  - destruct (String.eqb_spec (id t) id0); [contradiction | reflexivity].
Qed.

Lemma hiding_is_removal_for_summary_witness :
  let st := mkApp ["GENEL"%string] "GENEL" [buy 100 10; buy 200 10] false
                  EmptyString false EmptyString BUY Empty Empty Empty Empty
                  None false in
  totalQuantity (summaryOf (toggleTransactionStatus "sample" st)) == 0.
Proof.
  cbv zeta. rewrite hiding_is_removal_for_summary.
  - reflexivity.
  - intros t [H | [H | []]] _; subst t; reflexivity.
Defined.

Lemma toggle_twice_witness :
  let st := mkApp ["GENEL"%string] "GENEL" [buy 100 10; deactivate (sell 150 4)]
                  false EmptyString false EmptyString BUY Empty Empty Empty
                  Empty None false in
  transactions (toggleTransactionStatus "sample" (toggleTransactionStatus "sample" st))
  = [buy 100 10; deactivate (sell 150 4)].
Proof.
  cbv zeta. rewrite toggle_twice; [reflexivity |].
  intros t [H | [H | []]] _; subst t; discriminate.
Defined.

(** ** Clearing a portfolio and undoing it *)

Lemma filter_symbol_of_others (a s : string) (l : list Transaction) :
  filter (has_symbol s) (filter (fun t => negb (has_symbol a t)) l)
  = if String.eqb s a then [] else filter (has_symbol s) l.
Proof.
  induction l as [| t l IH]; cbn [filter].
  - destruct (String.eqb s a); reflexivity.
  - destruct (has_symbol a t) eqn:Ea; cbn [negb filter]; rewrite IH.
    + apply has_symbol_eq in Ea.
      destruct (String.eqb_spec s a) as [E | E]; [reflexivity |].
      assert (Es : has_symbol s t = false)
        by (unfold has_symbol; apply String.eqb_neq; congruence).
      rewrite Es. reflexivity.
    + destruct (String.eqb_spec s a) as [E | E]; [| reflexivity].
      subst s. rewrite Ea. reflexivity.
Qed.

Lemma filter_symbol_of_selected (a s : string) (l : list Transaction) :
  filter (has_symbol s) (filter (has_symbol a) l)
  = if String.eqb s a then filter (has_symbol a) l else [].
Proof.
  induction l as [| t l IH]; cbn [filter].
  - destruct (String.eqb s a); reflexivity.
  - destruct (has_symbol a t) eqn:Ea; cbn [filter]; rewrite ?IH.
    + apply has_symbol_eq in Ea.
      destruct (String.eqb_spec s a) as [E | E].
      * subst s. assert (Es : has_symbol a t = true) by (apply has_symbol_eq, Ea).
        rewrite Es. reflexivity.
      * assert (Es : has_symbol s t = false)
          by (unfold has_symbol; apply String.eqb_neq; congruence).
        rewrite Es. reflexivity.
    + reflexivity.
Qed.

Lemma currentTransactions_nil (txs : list Transaction) (a : string) :
  currentTransactions txs a = [] <-> filter (has_symbol a) txs = [].
Proof.
  unfold currentTransactions. split; intro H.
  - apply Permutation_nil. rewrite <- H. apply sort_by_timestamp_perm.
  - rewrite H. reflexivity.
Qed.

(** Clearing the selected portfolio empties its history and keeps what was
    removed; undoing it gives every portfolio the history it had, in the
    same order, and empties the undo buffer.  Clearing a portfolio without
    transactions does nothing. *)
Theorem reset_then_undo_restores (st : AppState) :
  let cleared := handleResetTransactions st in
  let restored := handleUndoDelete cleared in
  (currentOf st <> [] ->
   currentOf cleared = [] /\
   (forall s, s <> activeSymbol st ->
              currentTransactions (transactions cleared) s
              = currentTransactions (transactions st) s) /\
   (forall s, currentTransactions (transactions restored) s
              = currentTransactions (transactions st) s) /\
   Permutation (transactions restored) (transactions st) /\
   backupTransactions restored = None /\ showUndoToast restored = false) /\
  (currentOf st = [] -> cleared = st).
Proof.
  cbv zeta. unfold handleResetTransactions, currentOf.
  set (a := activeSymbol st). set (txs := transactions st).
  split.
  - intro Hne.
    assert (Hne' : filter (has_symbol a) txs <> [])
      by (intro E; apply Hne, currentTransactions_nil, E).
    destruct (filter (has_symbol a) txs) as [| t0 rest] eqn:Esel;
      [contradiction |].
    cbn [length Nat.eqb].
    cbn [handleUndoDelete backupTransactions setShowUndoToast
         setTargetAverageInput setSimulationPrice setTransactions
         setBackupTransactions transactions activeSymbol showUndoToast].
    fold a. fold txs. rewrite <- Esel.
    split.
    { apply currentTransactions_nil. rewrite filter_symbol_of_others.
      rewrite String.eqb_refl. reflexivity. }
    split.
    { intros s Hs. unfold currentTransactions.
      rewrite filter_symbol_of_others.
      destruct (String.eqb_spec s a); [contradiction | reflexivity]. }
    split.
    { intro s. unfold currentTransactions. rewrite filter_app.
      rewrite filter_symbol_of_others, filter_symbol_of_selected.
      destruct (String.eqb_spec s a) as [E | E].
      - subst s. reflexivity.
      - rewrite app_nil_r. reflexivity. }
    split; [| split; reflexivity].
    clear. induction txs as [| t l IH]; cbn [filter]; [constructor |].
    destruct (has_symbol a t); cbn [negb app].
    + apply Permutation_sym, Permutation_cons_app, Permutation_sym, IH.
    + apply perm_skip, IH.
  - intro Hnil. apply currentTransactions_nil in Hnil.
    rewrite Hnil. reflexivity.
Qed.

Lemma reset_then_undo_restores_witness :
  let st := mkApp ["GENEL"%string; "AKBNK"%string] "GENEL"
                  [buy 100 10; with_symbol "AKBNK" (buy 30 5); sell 150 4]
                  false EmptyString false EmptyString BUY Empty Empty Empty
                  Empty None false in
  currentOf (handleResetTransactions st) = [] /\
  currentOf (handleUndoDelete (handleResetTransactions st)) = currentOf st.
Proof.
  cbv zeta.
  match goal with |- currentOf (handleResetTransactions ?s) = _ /\ _ =>
    destruct (reset_then_undo_restores s) as [H _]
  end.
  destruct H as (H1 & _ & H3 & _); [discriminate |].
  split; [exact H1 | apply H3].
Defined.

(** ** Deleting a portfolio *)

(** The last portfolio cannot be deleted and a declined confirmation
    changes nothing.  A confirmed deletion out of a list without duplicate
    takes the selected portfolio off the list, leaves it no transaction,
    and leaves every other portfolio its history. *)
Theorem delete_stock_effect (st : AppState) :
  ((length (stockList st) <= 1)%nat ->
   forall confirmed, deleteCurrentStock confirmed st = Some st) /\
  deleteCurrentStock false st = Some st /\
  (listed st -> (1 < length (stockList st))%nat ->
   exists st',
     deleteCurrentStock true st = Some st' /\
     (forall s, In s (stockList st') <-> In s (stockList st) /\ s <> activeSymbol st) /\
     currentTransactions (transactions st') (activeSymbol st) = [] /\
     (forall s, s <> activeSymbol st ->
                currentTransactions (transactions st') s
                = currentTransactions (transactions st) s)).
Proof.
  unfold deleteCurrentStock. split; [| split].
  - intros Hlen confirmed.
    destruct (Nat.leb_spec (length (stockList st)) 1); [reflexivity | lia].
  - destruct (Nat.leb (length (stockList st)) 1); reflexivity.
  - intros [Hnd _] Hlen.
    destruct (Nat.leb_spec (length (stockList st)) 1); [lia |].
    pose proof (filter_other_nonempty (activeSymbol st) _ Hnd Hlen) as Hne.
    set (a := activeSymbol st) in *.
    destruct (filter (fun s => negb (String.eqb s a)) (stockList st))
      as [| first rest] eqn:Elist; [contradiction |].
    eexists. split; [reflexivity |].
    cbn [stockList transactions setTargetAverageInput setSimulationPrice
         setActiveSymbol setStockList setTransactions].
    split; [| split].
    + intro s. rewrite <- Elist, filter_In.
      destruct (String.eqb_spec s a); cbn [negb]; split; intros [H1 H2];
        split; try assumption; try reflexivity; try discriminate.
      contradiction.
    + apply currentTransactions_nil. rewrite filter_symbol_of_others.
      rewrite String.eqb_refl. reflexivity.
    + intros s Hs. unfold currentTransactions.
      rewrite filter_symbol_of_others.
      destruct (String.eqb_spec s a); [contradiction | reflexivity].
Qed.

(** ** Invariants of the stored transactions *)

Lemma Forall_filter_keeps {A : Type} (P : A -> Prop) (f : A -> bool)
    (l : list A) :
  Forall P l -> Forall P (filter f l).
Proof.
  intro H. apply Forall_forall. intros x Hx. apply filter_In in Hx.
  rewrite Forall_forall in H. apply H. tauto.
Qed.

Section StoredTransactions.

Variable toUpperCase : string -> string.
Variable trim : string -> string.

(** A property of single transactions that a change of symbol or of flag
    does not break and that the transactions made by the form have. *)
Variable P : Transaction -> Prop.
Hypothesis P_with_symbol : forall n t, P t -> P (with_symbol n t).
Hypothesis P_with_flipped_flag : forall t, P t -> P (with_flipped_flag t).
Hypothesis P_new :
  forall newId sym p q now ty,
    0 < p -> 0 < q -> P (mkTransaction newId sym p q now (Some true) ty).

Lemma kept_preserved (st : AppState) :
  Forall P (kept st) ->
  (forall newId now, Forall P (kept (handleAddTransaction newId now st))) /\
  (forall id0, Forall P (kept (toggleTransactionStatus id0 st))) /\
  (forall id0, Forall P (kept (removeTransaction id0 st))) /\
  Forall P (kept (handleRenameStock toUpperCase trim st)) /\
  Forall P (kept (handleResetTransactions st)) /\
  Forall P (kept (handleUndoDelete st)) /\
  Forall P (kept (toastTimeout st)) /\
  (forall confirmed st',
      deleteCurrentStock confirmed st = Some st' -> Forall P (kept st')).
Proof.
  unfold kept. intro H.
  apply Forall_app in H. destruct H as [Htx Hbk].
  repeat split.
  - intros newId now. unfold handleAddTransaction.
    destruct (parseFloat (inputPrice st)) as [p |];
      [| apply Forall_app; split; assumption].
    destruct (parseFloat (inputQuantity st)) as [q |];
      [| apply Forall_app; split; assumption].
    destruct (le_spec p 0) as [Hp | Hp]; [apply Forall_app; split; assumption |].
    destruct (le_spec q 0) as [Hq | Hq]; [apply Forall_app; split; assumption |].
    cbn [orb].
    assert (Hnew : Forall P
                     (transactions st ++
                      [mkTransaction newId (activeSymbol st) p q now (Some true)
                                     (transactionType st)])).
    { apply Forall_app. split; [exact Htx |].
      constructor; [apply P_new; lra | constructor]. }
    destruct (transactionType st); [destruct (falsy (simulationPrice st)) |];
      cbn; apply Forall_app; split; assumption.
  - intro id0. cbn. apply Forall_app. split; [| exact Hbk].
    apply Forall_forall. intros t Ht. apply in_map_iff in Ht.
    destruct Ht as (u & Eu & Hu). rewrite Forall_forall in Htx.
    specialize (Htx u Hu).
    destruct (String.eqb (id u) id0); subst t;
      [apply P_with_flipped_flag |]; exact Htx.
  - intro id0. cbn. apply Forall_app. split; [| exact Hbk].
    apply Forall_filter_keeps, Htx.
  - unfold handleRenameStock.
    destruct (truthy _); cbn [negb]; [| apply Forall_app; split; assumption].
    destruct (String.eqb _ (activeSymbol st));
      [cbn; apply Forall_app; split; assumption |].
    destruct (includes _ _); [apply Forall_app; split; assumption |].
    cbn. apply Forall_app. split; [| exact Hbk].
    apply Forall_forall. intros t Ht. apply in_map_iff in Ht.
    destruct Ht as (u & Eu & Hu). rewrite Forall_forall in Htx.
    specialize (Htx u Hu).
    destruct (has_symbol (activeSymbol st) u); subst t;
      [apply P_with_symbol |]; exact Htx.
  - unfold handleResetTransactions.
    destruct (Nat.eqb _ 0); [apply Forall_app; split; assumption |].
    cbn. apply Forall_app. split; apply Forall_filter_keeps, Htx.
  - unfold handleUndoDelete.
    destruct (backupTransactions st) as [backup |] eqn:E.
    + cbn. rewrite app_nil_r. apply Forall_app. split; assumption.
    + rewrite E, app_nil_r. exact Htx.
  - cbn. rewrite app_nil_r. exact Htx.
  - intros confirmed st'. unfold deleteCurrentStock.
    destruct (Nat.leb _ 1);
      [intro E; injection E as E; subst st'; apply Forall_app; split; assumption |].
    destruct confirmed;
      [| intro E; injection E as E; subst st'; apply Forall_app; split; assumption].
    destruct (filter _ (stockList st)) as [| first rest]; [discriminate |].
    intro E. injection E as E. subst st'. cbn.
    apply Forall_app. split; [apply Forall_filter_keeps, Htx | exact Hbk].
Qed.

End StoredTransactions.

Section StoreInvariants.

Variable toUpperCase : string -> string.
Variable trim : string -> string.

(** Whatever is stored, or waits in the undo buffer, has a positive price
    and a positive quantity, and that is kept by every handler that
    touches the transactions: adding, hiding, removing, renaming the
    portfolio, clearing it, undoing, the expiry of the undo buffer, and
    deleting the portfolio. *)
Theorem positive_preserved (st : AppState) :
  positive st ->
  (forall newId now, positive (handleAddTransaction newId now st)) /\
  (forall id0, positive (toggleTransactionStatus id0 st)) /\
  (forall id0, positive (removeTransaction id0 st)) /\
  positive (handleRenameStock toUpperCase trim st) /\
  positive (handleResetTransactions st) /\
  positive (handleUndoDelete st) /\
  positive (toastTimeout st) /\
  (forall confirmed st',
      deleteCurrentStock confirmed st = Some st' -> positive st').
Proof.
  unfold positive. apply kept_preserved.
  - intros n t H. exact H.
  - intros t H. exact H.
  - intros newId sym p q now ty Hp Hq. split; assumption.
Qed.

(** The transactions read from storage all carry the flag once migrated,
    and so does whatever is stored or waits in the undo buffer after any
    handler: no click on the eye meets a transaction without flag. *)
Theorem flagged_preserved (st : AppState) :
  (forall stored, Forall (fun t => isActive t <> None) (map migrate stored)) /\
  (flagged st ->
   (forall newId now, flagged (handleAddTransaction newId now st)) /\
   (forall id0, flagged (toggleTransactionStatus id0 st)) /\
   (forall id0, flagged (removeTransaction id0 st)) /\
   flagged (handleRenameStock toUpperCase trim st) /\
   flagged (handleResetTransactions st) /\
   flagged (handleUndoDelete st) /\
   flagged (toastTimeout st) /\
   (forall confirmed st',
       deleteCurrentStock confirmed st = Some st' -> flagged st')).
Proof.
  unfold flagged. split.
  - intro stored.
    apply Forall_forall. intros t Ht. apply in_map_iff in Ht.
    destruct Ht as (u & Eu & _). subst t. cbn. discriminate.
  - apply kept_preserved.
    + intros n t H. exact H.
    + intros t _. cbn. destruct (isActive t) as [[|] |]; discriminate.
    + intros newId sym p q now ty _ _. cbn. discriminate.
Qed.

End StoreInvariants.

(** ** Adding a portfolio; who owns the transactions *)

Lemma renamed_still_owned (a n : string) (stocks : list string)
    (txs : list Transaction) :
  Forall (fun t => In (symbol t) stocks) txs ->
  Forall (fun t => In (symbol t)
                      (map (fun s => if String.eqb s a then n else s) stocks))
         (map (fun t => if has_symbol a t then with_symbol n t else t) txs).
Proof.
  intro H. apply Forall_forall. intros t Ht. apply in_map_iff in Ht.
  destruct Ht as (u & Eu & Hu).
  rewrite Forall_forall in H. specialize (H u Hu).
  apply in_map_iff. exists (symbol u). split; [| exact H].
  unfold has_symbol in Eu.
  destruct (String.eqb (symbol u) a); subst t; reflexivity.
Qed.

Lemma owned_by_larger_list (stocks stocks' : list string)
    (txs : list Transaction) :
  (forall s, In s stocks -> In s stocks') ->
  Forall (fun t => In (symbol t) stocks) txs ->
  Forall (fun t => In (symbol t) stocks') txs.
Proof.
  intros Hsub H. apply Forall_impl with (2 := H). intros t Ht. apply Hsub, Ht.
Qed.

Section Ownership.

Variable toUpperCase : string -> string.
Variable trim : string -> string.

(** A blank name adds nothing.  Otherwise the portfolio of that name is
    selected and the simulation inputs are cleared; the list gains the
    name only if it did not hold it, and the transactions are untouched.
    When every transaction belongs to a listed portfolio, a portfolio
    that is new to the list starts with an empty history. *)
Theorem add_stock_selects (st : AppState) :
  let name := trim (toUpperCase (newStockName st)) in
  let st' := handleAddStock toUpperCase trim st in
  (truthy (trim (newStockName st)) = false -> st' = st) /\
  (truthy (trim (newStockName st)) = true ->
   activeSymbol st' = name /\
   (forall s, In s (stockList st') <-> In s (stockList st) \/ s = name) /\
   (In name (stockList st) -> stockList st' = stockList st) /\
   transactions st' = transactions st /\
   simulationPrice st' = Empty /\ targetAverageInput st' = Empty /\
   (owned st -> ~ In name (stockList st) -> currentOf st' = [])).
Proof.
  intros name st'. subst st'. unfold handleAddStock. fold name.
  split; intro Htr; rewrite Htr; [reflexivity |].
  destruct (includes (stockList st) name) eqn:Einc; cbn [negb].
  - apply includes_In in Einc.
    split; [reflexivity |]. split.
    { intro s. cbn. split; [tauto |]. intros [H | H]; [exact H | subst s; exact Einc]. }
    split; [reflexivity |]. split; [reflexivity |].
    split; [reflexivity |]. split; [reflexivity |].
    intros _ Hnot. contradiction.
  - apply includes_false in Einc.
    split; [reflexivity |]. split.
    { intro s. cbn. rewrite in_app_iff. simpl. split; intros [H | H]; auto.
      - destruct H as [H | []]. right. symmetry. exact H. }
    split; [intro H; contradiction |].
    split; [reflexivity |]. split; [reflexivity |]. split; [reflexivity |].
    intros Hown _. unfold currentOf. cbn.
    apply currentTransactions_nil.
    unfold owned in Hown.
    induction (transactions st) as [| t l IH]; [reflexivity |].
    apply Forall_cons_iff in Hown. destruct Hown as [Ht Hl].
    cbn [filter]. destruct (has_symbol name t) eqn:E; [| exact (IH Hl)].
    apply has_symbol_eq in E. rewrite E in Ht. contradiction.
Qed.

(** Every stored transaction belongs to a portfolio of the list, and that
    is kept when a transaction is added, hidden or removed, when a
    portfolio is added, renamed, selected, cleared or deleted, and when a
    clearing is undone at once. *)
Theorem owned_preserved (st : AppState) :
  listed st -> owned st ->
  (forall newId now, owned (handleAddTransaction newId now st)) /\
  (forall id0, owned (toggleTransactionStatus id0 st)) /\
  (forall id0, owned (removeTransaction id0 st)) /\
  owned (handleAddStock toUpperCase trim st) /\
  owned (handleRenameStock toUpperCase trim st) /\
  (forall stock, owned (selectStock stock st)) /\
  owned (handleResetTransactions st) /\
  (currentOf st <> [] -> owned (handleUndoDelete (handleResetTransactions st))) /\
  (forall confirmed st',
      deleteCurrentStock confirmed st = Some st' -> owned st').
Proof.
  unfold owned. intros [Hnd Hin] Hown.
  split; [| split; [| split; [| split; [| split; [| split; [| split; [| split]]]]]]].
  - intros newId now. unfold handleAddTransaction.
    destruct (parseFloat (inputPrice st)) as [p |]; [| exact Hown].
    destruct (parseFloat (inputQuantity st)) as [q |]; [| exact Hown].
    destruct (le p 0 || le q 0); [exact Hown |].
    assert (Hnew : Forall (fun t => In (symbol t) (stockList st))
                     (transactions st ++
                      [mkTransaction newId (activeSymbol st) p q now (Some true)
                                     (transactionType st)])).
    { apply Forall_app. split; [exact Hown |].
      constructor; [exact Hin | constructor]. }
    destruct (transactionType st); [destruct (falsy (simulationPrice st)) |];
      exact Hnew.
  - intro id0. cbn.
    apply Forall_forall. intros t Ht. apply in_map_iff in Ht.
    destruct Ht as (u & Eu & Hu). rewrite Forall_forall in Hown.
    specialize (Hown u Hu).
    destruct (String.eqb (id u) id0); subst t; exact Hown.
  - intro id0. cbn. apply Forall_filter_keeps, Hown.
  - unfold handleAddStock.
    destruct (truthy (trim (newStockName st))); [| exact Hown].
    destruct (includes (stockList st) _); cbn; [exact Hown |].
    apply owned_by_larger_list with (2 := Hown).
    intros s Hs. apply in_or_app. left. exact Hs.
  - unfold handleRenameStock.
    destruct (truthy _); cbn [negb]; [| exact Hown].
    destruct (String.eqb _ (activeSymbol st)); [exact Hown |].
    destruct (includes _ _); [exact Hown |].
    cbn. apply renamed_still_owned, Hown.
  - intro stock. exact Hown.
  - unfold handleResetTransactions.
    destruct (Nat.eqb _ 0); [exact Hown |].
    cbn. apply Forall_filter_keeps, Hown.
  - intro Hne. unfold currentOf in Hne.
    assert (Hne' : filter (has_symbol (activeSymbol st)) (transactions st) <> [])
      by (intro E; apply Hne, currentTransactions_nil, E).
    unfold handleResetTransactions.
    destruct (filter (has_symbol (activeSymbol st)) (transactions st))
      as [| t0 rest] eqn:Esel; [contradiction |].
    cbn. rewrite <- Esel.
    apply Forall_app. split; apply Forall_filter_keeps, Hown.
  - intros confirmed st'. unfold deleteCurrentStock.
    destruct (Nat.leb _ 1); [intro E; injection E as E; subst st'; exact Hown |].
    destruct confirmed; [| intro E; injection E as E; subst st'; exact Hown].
    destruct (filter _ (stockList st)) as [| first rest] eqn:Elist; [discriminate |].
    intro E. injection E as E. subst st'.
    cbn [stockList transactions setTargetAverageInput setSimulationPrice
         setActiveSymbol setStockList setTransactions].
    rewrite <- Elist.
    apply Forall_forall. intros t Ht. apply filter_In in Ht.
    destruct Ht as [Ht Hs]. rewrite Forall_forall in Hown.
    apply filter_In. split; [apply Hown, Ht |].
    unfold has_symbol in Hs. exact Hs.
Qed.

End Ownership.

(** ** The handlers on a sample store *)

Lemma sample_store_listed : listed sample_store.
Proof.
  split.
  - repeat constructor; simpl; intuition discriminate.
  - simpl. left. reflexivity.
Qed.

Lemma sample_store_owned : owned sample_store.
Proof.
  unfold owned. simpl.
  repeat (constructor; [simpl; auto |]). constructor.
Qed.

Lemma sample_store_positive : positive sample_store.
Proof. repeat constructor. Qed.

Lemma sample_store_flagged : flagged sample_store.
Proof. repeat constructor; discriminate. Qed.

Lemma listed_preserved_witness :
  listed (handleAddStock unchanged unchanged sample_store) /\
  listed (handleRenameStock unchanged unchanged sample_store) /\
  exists st', deleteCurrentStock true sample_store = Some st' /\ listed st'.
Proof.
  destruct (listed_preserved unchanged unchanged sample_store sample_store_listed)
    as (H1 & H2 & _ & H4).
  split; [exact H1 |]. split; [exact H2 | exact (H4 true)].
Defined.

Lemma rename_carries_history_witness :
  activeSymbol (handleRenameStock unchanged unchanged sample_store) = "THYAO"%string /\
  summaryOf (handleRenameStock unchanged unchanged sample_store)
  = summaryOf sample_store.
Proof.
  destruct (rename_carries_history unchanged unchanged sample_store) as [H _].
  destruct H as (H1 & _ & H3 & _).
  - exact sample_store_owned.
  - reflexivity.
  - discriminate.
  - simpl. intuition discriminate.
  - split; [exact H1 | exact H3].
Defined.

Lemma add_transaction_follows_preview_witness :
  exists r,
    previewOf sample_store = Some r /\
    averageCost (summaryOf (handleAddTransaction "new" 1 sample_store)) == newAvg r.
Proof.
  eexists. split; [reflexivity |].
  destruct (add_transaction_follows_preview "new" 1 sample_store) as [_ H].
  destruct (H _ eq_refl) as (t & _ & _ & _ & _ & _ & _ & Havg & _).
  - repeat constructor; unfold Qle; simpl; lia.
  - intros _. split; unfold Qle; simpl; lia.
  - exact Havg.
Defined.

Lemma delete_stock_effect_witness :
  exists st',
    deleteCurrentStock true sample_store = Some st' /\
    currentTransactions (transactions st') "GENEL" = [] /\
    currentTransactions (transactions st') "AKBNK"
    = currentTransactions (transactions sample_store) "AKBNK".
Proof.
  destruct (delete_stock_effect sample_store) as (_ & _ & H).
  destruct (H sample_store_listed) as (st' & E & _ & H1 & H2).
  - simpl. lia.
  - exists st'. split; [exact E |]. split; [exact H1 |].
    apply H2. discriminate.
Defined.

Lemma positive_preserved_witness :
  positive (handleAddTransaction "new" 1 sample_store) /\
  positive (handleUndoDelete (handleResetTransactions sample_store)).
Proof.
  split.
  - apply (positive_preserved unchanged unchanged sample_store
             sample_store_positive).
  - apply (positive_preserved unchanged unchanged
             (handleResetTransactions sample_store)).
    apply (positive_preserved unchanged unchanged sample_store
             sample_store_positive).
Defined.

Lemma flagged_preserved_witness :
  flagged (toggleTransactionStatus "sample" sample_store).
Proof.
  apply (flagged_preserved unchanged unchanged sample_store).
  exact sample_store_flagged.
Defined.

Lemma add_stock_selects_witness :
  currentOf (handleAddStock unchanged unchanged sample_store) = [].
Proof.
  destruct (add_stock_selects unchanged unchanged sample_store) as [_ H].
  destruct (H eq_refl) as (_ & _ & _ & _ & _ & _ & Hnew).
  apply Hnew.
  - exact sample_store_owned.
  - simpl. intuition discriminate.
Defined.

Lemma owned_preserved_witness :
  owned (handleRenameStock unchanged unchanged sample_store) /\
  owned (handleUndoDelete (handleResetTransactions sample_store)).
Proof.
  destruct (owned_preserved unchanged unchanged sample_store
              sample_store_listed sample_store_owned)
    as (_ & _ & _ & _ & H5 & _ & _ & H8 & _).
  split; [exact H5 | apply H8; discriminate].
Defined.

(** ** Doubles: how rounding treats a positive number *)

Section DoubleRounding.
Local Open Scope Z_scope.

Lemma digits2_pos_bounds (p : BinNums.positive) :
  2 ^ (Zpos (digits2_pos p) - 1) <= Zpos p < 2 ^ Zpos (digits2_pos p).
Proof.
  induction p as [p IH | p IH |]; cbn [digits2_pos].
  - rewrite Pos2Z.inj_succ.
    replace (Z.succ (Zpos (digits2_pos p)) - 1) with (Z.succ (Zpos (digits2_pos p) - 1)) by lia.
    rewrite !Z.pow_succ_r by lia. lia.
  - rewrite Pos2Z.inj_succ.
    replace (Z.succ (Zpos (digits2_pos p)) - 1) with (Z.succ (Zpos (digits2_pos p) - 1)) by lia.
    rewrite !Z.pow_succ_r by lia. lia.
  - cbn. lia.
Qed.

Lemma pow2_pos (n : Z) : 0 <= n -> 0 < 2 ^ n.
Proof. intros. apply Z.pow_pos_nonneg; lia. Qed.

Lemma digits2_pos_le (p : BinNums.positive) (d : Z) :
  Zpos p < 2 ^ d -> 0 <= d -> Zpos (digits2_pos p) <= d.
Proof.
  intros Hu Hd.
  destruct (digits2_pos_bounds p) as [Hl' _].
  destruct (Z.le_gt_cases (Zpos (digits2_pos p)) d) as [H | H]; [exact H |].
  assert (2 ^ d <= 2 ^ (Zpos (digits2_pos p) - 1))
    by (apply Z.pow_le_mono_r; lia).
  lia.
Qed.

Lemma shr_1_m (mrs : shr_record) :
  0 <= shr_m mrs -> shr_m (shr_1 mrs) = shr_m mrs / 2.
Proof.
  destruct mrs as [m r s]; cbn [shr_m].
  destruct m as [| [p | p |] | p]; intros H; cbn [shr_1 shr_m]; try lia.
  - reflexivity.
  - rewrite Pos2Z.inj_xI. apply Z.div_unique with 1; lia.
  - rewrite Pos2Z.inj_xO. apply Z.div_unique with 0; lia.
  - reflexivity.
Qed.

Lemma iter_shr_1_m (p : BinNums.positive) (mrs : shr_record) :
  0 <= shr_m mrs ->
  shr_m (iter_pos shr_1 p mrs) = shr_m mrs / 2 ^ Zpos p.
Proof.
  revert mrs.
  induction p as [p IH | p IH |]; intros mrs H; cbn [iter_pos].
  - assert (H1 : 0 <= shr_m (shr_1 mrs)).
    { rewrite shr_1_m by exact H. apply Z.div_pos; lia. }
    assert (H2 : 0 <= shr_m (iter_pos shr_1 p (shr_1 mrs))).
    { rewrite IH by exact H1. apply Z.div_pos; [exact H1 | apply pow2_pos; lia]. }
    rewrite IH by exact H2. rewrite IH by exact H1. rewrite shr_1_m by exact H.
    rewrite !Z.div_div by (try lia; apply pow2_pos; lia).
    f_equal.
    replace (Zpos p~1) with (1 + Zpos p + Zpos p) by lia.
    rewrite !Z.pow_add_r by lia. lia.
  - assert (H2 : 0 <= shr_m (iter_pos shr_1 p mrs)).
    { rewrite IH by exact H. apply Z.div_pos; [exact H | apply pow2_pos; lia]. }
    rewrite IH by exact H2. rewrite IH by exact H.
    rewrite !Z.div_div by (try lia; apply pow2_pos; lia).
    f_equal.
    replace (Zpos p~0) with (Zpos p + Zpos p) by lia.
    rewrite !Z.pow_add_r by lia. lia.
  - rewrite shr_1_m by exact H. reflexivity.
Qed.

Lemma shr_record_of_loc_m (m : Z) (l : location) :
  shr_m (shr_record_of_loc m l) = m.
Proof. destruct l as [| []]; reflexivity. Qed.

(** [shr_fexp] divides the mantissa by the power of two that brings it
    down to the precision. *)
Lemma shr_fexp_spec (m e : Z) (l : location) :
  0 <= m ->
  let n := Z.max 0 (fexp Double.prec Double.emax (Zdigits2 m + e) - e) in
  snd (shr_fexp Double.prec Double.emax m e l) = e + n /\
  shr_m (fst (shr_fexp Double.prec Double.emax m e l)) = m / 2 ^ n.
Proof.
  intros H n. subst n. unfold shr_fexp, shr.
  destruct (fexp Double.prec Double.emax (Zdigits2 m + e) - e) as [| p | p] eqn:E;
    cbn [fst snd].
  - rewrite shr_record_of_loc_m. cbn. split; [lia |]. now rewrite Z.div_1_r.
  - rewrite iter_shr_1_m by (now rewrite shr_record_of_loc_m).
    rewrite shr_record_of_loc_m. rewrite Z.max_r by lia. split; reflexivity.
  - rewrite shr_record_of_loc_m. cbn. split; [lia |]. now rewrite Z.div_1_r.
Qed.

Lemma round_nearest_even_bounds (m : Z) (l : location) :
  m <= round_nearest_even m l <= m + 1.
Proof.
  destruct l as [| []]; cbn [round_nearest_even]; try lia.
  destruct (Z.even m); lia.
Qed.

Lemma fexp_eq (x : Z) :
  fexp Double.prec Double.emax x = Z.max (x - 53) (-1074).
Proof. reflexivity. Qed.

Lemma Zdigits2_bounds (m : Z) :
  0 < m -> 2 ^ (Zdigits2 m - 1) <= m < 2 ^ Zdigits2 m /\ 0 < Zdigits2 m.
Proof.
  destruct m as [| p | p]; intros H; try lia.
  cbn [Zdigits2]. split; [apply digits2_pos_bounds | lia].
Qed.

Lemma Zdigits2_le (m d : Z) : 0 < m -> m < 2 ^ d -> 0 <= d -> Zdigits2 m <= d.
Proof.
  destruct m as [| p | p]; intros H; try lia.
  cbn [Zdigits2]. apply digits2_pos_le.
Qed.

(** The shift of [shr_fexp] above the smallest exponent: what exceeds 53
    binary digits. *)
Lemma shift_amount (m e : Z) :
  -1074 <= e ->
  Z.max 0 (fexp Double.prec Double.emax (Zdigits2 m + e) - e)
  = Z.max 0 (Zdigits2 m - 53).
Proof. intros H. rewrite fexp_eq. lia. Qed.

Lemma shift_keeps_positive (m : Z) :
  0 < m -> 1 <= m / 2 ^ Z.max 0 (Zdigits2 m - 53).
Proof.
  intros H. destruct (Zdigits2_bounds m H) as [[Hl _] Hd].
  apply Z.div_le_lower_bound; [apply pow2_pos; lia |].
  rewrite Z.mul_1_r.
  apply Z.le_trans with (2 ^ (Zdigits2 m - 1)); [| exact Hl].
  apply Z.pow_le_mono_r; lia.
Qed.

Lemma shift_below_precision (m : Z) :
  0 < m -> m / 2 ^ Z.max 0 (Zdigits2 m - 53) < 2 ^ 53.
Proof.
  intros H. destruct (Zdigits2_bounds m H) as [[_ Hu] Hd].
  apply Z.div_lt_upper_bound; [apply pow2_pos; lia |].
  rewrite <- Z.pow_add_r by lia.
  apply Z.lt_le_trans with (2 ^ Zdigits2 m); [exact Hu |].
  apply Z.pow_le_mono_r; lia.
Qed.

(** Rounding a mantissa that is not negative gives a number of the sign
    asked for, never [NaN]. *)
Lemma binary_round_aux_sign (s : bool) (m e : Z) (l : location) :
  0 <= m ->
  binary_round_aux Double.prec Double.emax s m e l = S754_zero s \/
  binary_round_aux Double.prec Double.emax s m e l = S754_infinity s \/
  exists m' e', binary_round_aux Double.prec Double.emax s m e l
                = S754_finite s m' e'.
Proof.
  intros H. unfold binary_round_aux.
  destruct (shr_fexp_spec m e l H) as [_ H1].
  destruct (shr_fexp Double.prec Double.emax m e l) as [mrs1 e1].
  cbn [fst snd] in H1.
  assert (H1' : 0 <= shr_m mrs1).
  { rewrite H1. apply Z.div_pos; [exact H | apply pow2_pos; lia]. }
  pose proof (round_nearest_even_bounds (shr_m mrs1) (loc_of_shr_record mrs1))
    as Hr.
  set (m2 := round_nearest_even (shr_m mrs1) (loc_of_shr_record mrs1)) in *.
  assert (H2 : 0 <= m2) by lia.
  destruct (shr_fexp_spec m2 e1 loc_Exact H2) as [_ H3].
  destruct (shr_fexp Double.prec Double.emax m2 e1 loc_Exact) as [mrs2 e2].
  cbn [fst snd] in H3.
  assert (H3' : 0 <= shr_m mrs2).
  { rewrite H3. apply Z.div_pos; [exact H2 | apply pow2_pos; lia]. }
  destruct (shr_m mrs2) as [| p | p]; [now left | | lia].
  destruct (e2 <=? Double.emax - Double.prec); [right; right; eauto | now right; left].
Qed.

(** Rounding a positive mantissa above the smallest exponent gives a
    positive number: it does not underflow to zero. *)
Lemma binary_round_aux_positive (m e : Z) (l : location) :
  0 < m -> -1074 <= e ->
  binary_round_aux Double.prec Double.emax false m e l = S754_infinity false \/
  exists m' e', binary_round_aux Double.prec Double.emax false m e l
                = S754_finite false m' e'.
Proof.
  intros H He. unfold binary_round_aux.
  destruct (shr_fexp_spec m e l) as [H0 H1]; [lia |].
  rewrite shift_amount in H0, H1 by exact He.
  destruct (shr_fexp Double.prec Double.emax m e l) as [mrs1 e1].
  cbn [fst snd] in H0, H1.
  pose proof (shift_keeps_positive m H) as H1'. rewrite <- H1 in H1'.
  pose proof (round_nearest_even_bounds (shr_m mrs1) (loc_of_shr_record mrs1))
    as Hr.
  set (m2 := round_nearest_even (shr_m mrs1) (loc_of_shr_record mrs1)) in *.
  assert (H2 : 0 < m2) by lia.
  assert (He1 : -1074 <= e1) by lia.
  destruct (shr_fexp_spec m2 e1 loc_Exact) as [_ H3]; [lia |].
  rewrite shift_amount in H3 by exact He1.
  destruct (shr_fexp Double.prec Double.emax m2 e1 loc_Exact) as [mrs2 e2].
  cbn [fst snd] in H3.
  pose proof (shift_keeps_positive m2 H2) as H3'. rewrite <- H3 in H3'.
  destruct (shr_m mrs2) as [| p | p]; [lia | | lia].
  destruct (e2 <=? Double.emax - Double.prec); [right; eauto | now left].
Qed.

(** Rounding a positive mantissa below the largest double gives a finite
    positive number: it does not overflow. *)
Lemma binary_round_aux_finite (m e : Z) (l : location) :
  0 < m -> -1074 <= e <= 971 -> m < (2 ^ 53 - 1) * 2 ^ (971 - e) ->
  exists m' e', binary_round_aux Double.prec Double.emax false m e l
                = S754_finite false m' e'.
Proof.
  intros H He Hm. unfold binary_round_aux.
  destruct (shr_fexp_spec m e l) as [H0 H1]; [lia |].
  rewrite shift_amount in H0, H1 by lia.
  destruct (shr_fexp Double.prec Double.emax m e l) as [mrs1 e1].
  cbn [fst snd] in H0, H1.
  pose proof (shift_keeps_positive m H) as H1'. rewrite <- H1 in H1'.
  pose proof (shift_below_precision m H) as H1''. rewrite <- H1 in H1''.
  destruct (Zdigits2_bounds m H) as [[Hl Hu] Hd].
  (* the exponent after the first shift is at most 971 *)
  assert (Hsum : Zdigits2 m + e <= 1024).
  { assert (Hlt : 2 ^ (Zdigits2 m - 1) < 2 ^ (1024 - e)).
    { apply Z.le_lt_trans with m; [exact Hl |].
      apply Z.lt_le_trans with ((2 ^ 53 - 1) * 2 ^ (971 - e)); [exact Hm |].
      replace (1024 - e) with (53 + (971 - e)) by lia.
      rewrite Z.pow_add_r by lia.
      apply Z.mul_le_mono_nonneg_r; [apply Z.lt_le_incl, pow2_pos; lia | lia]. }
    apply Z.pow_lt_mono_r_iff in Hlt; lia. }
  assert (He1 : -1074 <= e1 <= 971) by lia.
  (* at the exponent 971 the mantissa stays below 2^53 - 1 *)
  assert (Htop : e1 = 971 -> shr_m mrs1 < 2 ^ 53 - 1).
  { intros E. rewrite H1. apply Z.div_lt_upper_bound; [apply pow2_pos; lia |].
    replace (Z.max 0 (Zdigits2 m - 53)) with (971 - e) by lia.
    rewrite Z.mul_comm. exact Hm. }
  pose proof (round_nearest_even_bounds (shr_m mrs1) (loc_of_shr_record mrs1))
    as Hr.
  set (m2 := round_nearest_even (shr_m mrs1) (loc_of_shr_record mrs1)) in *.
  assert (H2 : 0 < m2) by lia.
  destruct (shr_fexp_spec m2 e1 loc_Exact) as [H4 H3]; [lia |].
  rewrite shift_amount in H3, H4 by lia.
  destruct (shr_fexp Double.prec Double.emax m2 e1 loc_Exact) as [mrs2 e2].
  cbn [fst snd] in H3, H4.
  pose proof (shift_keeps_positive m2 H2) as H3'. rewrite <- H3 in H3'.
  assert (Hd2 : Zdigits2 m2 <= 54).
  { apply Zdigits2_le; [exact H2 | | lia].
    change (2 ^ 54) with (2 * 2 ^ 53). lia. }
  assert (Hd2' : e1 = 971 -> Zdigits2 m2 <= 53).
  { intros E. apply Zdigits2_le; [exact H2 | | lia]. specialize (Htop E). lia. }
  assert (He2 : e2 <= 971) by lia.
  destruct (shr_m mrs2) as [| p | p]; [lia | | lia].
  replace (e2 <=? Double.emax - Double.prec) with true
    by (symmetry; apply Z.leb_le; unfold Double.emax, Double.prec; lia).
  eauto.
Qed.

Lemma iter_xO (m d : BinNums.positive) :
  Zpos (Pos.iter xO m d) = Zpos m * 2 ^ Zpos d.
Proof.
  induction d as [| d IH] using Pos.peano_ind.
  - cbn [Pos.iter]. lia.
  - rewrite Pos.iter_succ, Pos2Z.inj_succ, Z.pow_succ_r by lia.
    rewrite Pos2Z.inj_xO with (p := Pos.iter xO m d), IH. lia.
Qed.

(** [shl_align] brings a mantissa to the smaller of the two exponents. *)
Lemma shl_align_spec (m : BinNums.positive) (e e' : Z) :
  snd (shl_align m e e') = Z.min e e' /\
  Zpos (fst (shl_align m e e')) = Zpos m * 2 ^ (e - Z.min e e').
Proof.
  unfold shl_align. destruct (e' - e) as [| d | d] eqn:E; cbn [fst snd].
  - replace (e - Z.min e e') with 0 by lia. cbn. lia.
  - replace (e - Z.min e e') with 0 by lia. cbn. lia.
  - rewrite iter_xO. replace (e - Z.min e e') with (Zpos d) by lia. lia.
Qed.

Lemma binary_round_positive (m : BinNums.positive) (e : Z) :
  -1074 <= e ->
  binary_round Double.prec Double.emax false m e = S754_infinity false \/
  exists m' e', binary_round Double.prec Double.emax false m e
                = S754_finite false m' e'.
Proof.
  intros He. unfold binary_round.
  destruct (shl_align_spec m e
              (fexp Double.prec Double.emax (Zpos (digits2_pos m) + e)))
    as [H1 H2].
  destruct (shl_align m e _) as [mz ez]. cbn [fst snd] in H1, H2.
  apply binary_round_aux_positive; [lia |].
  rewrite fexp_eq in H1. lia.
Qed.

Lemma binary_round_finite (m : BinNums.positive) (e : Z) :
  -1074 <= e <= 971 -> Zpos m < (2 ^ 53 - 1) * 2 ^ (971 - e) ->
  exists m' e', binary_round Double.prec Double.emax false m e
                = S754_finite false m' e'.
Proof.
  intros He Hm. unfold binary_round.
  destruct (shl_align_spec m e
              (fexp Double.prec Double.emax (Zpos (digits2_pos m) + e)))
    as [H1 H2].
  destruct (shl_align m e _) as [mz ez]. cbn [fst snd] in H1, H2.
  rewrite <- H1 in H2. rewrite fexp_eq in H1.
  apply binary_round_aux_finite; [lia | lia |].
  rewrite H2.
  replace (971 - ez) with ((971 - e) + (e - ez)) by lia.
  rewrite Z.pow_add_r, Z.mul_assoc by lia.
  apply Z.mul_lt_mono_pos_r; [apply pow2_pos; lia | exact Hm].
Qed.

(** What being a double says of a mantissa and its exponent. *)
Lemma bounded_spec (m : BinNums.positive) (e : Z) :
  bounded Double.prec Double.emax m e = true ->
  -1074 <= e <= 971 /\ Zpos m < 2 ^ 53 /\ (-1074 < e -> 2 ^ 52 <= Zpos m).
Proof.
  unfold bounded, canonical_mantissa. intros H.
  apply andb_prop in H. destruct H as [H1 H2].
  apply Z.eqb_eq in H1. apply Z.leb_le in H2.
  rewrite fexp_eq in H1. unfold Double.emax, Double.prec in H2.
  destruct (digits2_pos_bounds m) as [Hl Hu].
  split; [lia |]. split.
  - apply Z.lt_le_trans with (2 ^ Zpos (digits2_pos m)); [exact Hu |].
    apply Z.pow_le_mono_r; lia.
  - intros He. replace 52 with (Zpos (digits2_pos m) - 1) by lia. exact Hl.
Qed.

(** Among positive doubles the comparison [<] is the order of the values. *)
Lemma lt_positive_values (mb ma : BinNums.positive) (eb ea : Z) :
  bounded Double.prec Double.emax mb eb = true ->
  bounded Double.prec Double.emax ma ea = true ->
  Double.lt (S754_finite false mb eb) (S754_finite false ma ea) = true ->
  Zpos mb * 2 ^ (eb - Z.min ea eb) < Zpos ma * 2 ^ (ea - Z.min ea eb).
Proof.
  intros Hb Ha H.
  destruct (bounded_spec mb eb Hb) as (Heb & Hmb & _).
  destruct (bounded_spec ma ea Ha) as (Hea & _ & Hma).
  unfold Double.lt, SFltb, SFcompare in H.
  destruct (Z.compare_spec eb ea) as [E | E | E]; try discriminate.
  - subst ea. rewrite Z.min_id, Z.sub_diag. cbn.
    change (Pos.compare_cont Eq mb ma) with (Pos.compare mb ma) in H.
    destruct (Pos.compare_spec mb ma) as [E | E | E]; try discriminate. lia.
  - replace (Z.min ea eb) with eb by lia. rewrite Z.sub_diag, Z.pow_0_r.
    assert (H2 : 2 ^ 1 <= 2 ^ (ea - eb)) by (apply Z.pow_le_mono_r; lia).
    specialize (Hma ltac:(lia)).
    assert (H3 : 2 ^ 52 * 2 ^ 1 <= Zpos ma * 2 ^ (ea - eb))
      by (apply Z.mul_le_mono_nonneg; lia).
    change (2 ^ 52 * 2 ^ 1) with (2 ^ 53) in H3. lia.
Qed.

(** Subtraction does not underflow: the difference of two positive doubles
    [b < a] is a finite positive double. *)
Lemma sub_finite_positive (ma mb : BinNums.positive) (ea eb : Z) :
  bounded Double.prec Double.emax ma ea = true ->
  bounded Double.prec Double.emax mb eb = true ->
  Double.lt (S754_finite false mb eb) (S754_finite false ma ea) = true ->
  exists m e,
    Double.sub (S754_finite false ma ea) (S754_finite false mb eb)
    = S754_finite false m e.
Proof.
  intros Ha Hb H.
  pose proof (lt_positive_values mb ma eb ea Hb Ha H) as Hlt.
  destruct (bounded_spec mb eb Hb) as (Heb & Hmb & _).
  destruct (bounded_spec ma ea Ha) as (Hea & Hma & _).
  unfold Double.sub, SFsub. cbv zeta. cbn [cond_Zopp].
  destruct (shl_align_spec ma ea (Z.min ea eb)) as [_ H1].
  destruct (shl_align_spec mb eb (Z.min ea eb)) as [_ H2].
  rewrite H1, H2.
  replace (Z.min ea (Z.min ea eb)) with (Z.min ea eb) by lia.
  replace (Z.min eb (Z.min ea eb)) with (Z.min ea eb) by lia.
  set (ez := Z.min ea eb) in *.
  assert (Hpos : 0 < Zpos mb * 2 ^ (eb - ez))
    by (apply Z.mul_pos_pos; [lia | apply pow2_pos; lia]).
  destruct (Zpos ma * 2 ^ (ea - ez) - Zpos mb * 2 ^ (eb - ez)) as [| d | d] eqn:E;
    try lia.
  cbn [binary_normalize].
  apply binary_round_finite; [lia |].
  rewrite <- E.
  apply Z.lt_le_trans with (Zpos ma * 2 ^ (ea - ez)); [lia |].
  replace (971 - ez) with ((971 - ea) + (ea - ez)) by lia.
  rewrite Z.pow_add_r, Z.mul_assoc by lia.
  apply Z.mul_le_mono_nonneg_r; [apply Z.lt_le_incl, pow2_pos; lia |].
  pose proof (pow2_pos (971 - ea) ltac:(lia)).
  nia.
Qed.

Lemma SFdiv_core_binary_nonneg (m1 m2 : BinNums.positive) (e1 e2 : Z) :
  0 <= fst (fst (SFdiv_core_binary Double.prec Double.emax
                   (Zpos m1) e1 (Zpos m2) e2)).
Proof.
  unfold SFdiv_core_binary. cbv zeta.
  match goal with
  | |- context [Z.div_eucl ?a ?b] =>
      assert (Ha : 0 <= a); [| pose proof (Z.div_pos a b Ha ltac:(lia)) as Hq;
                               unfold Z.div in Hq;
                               destruct (Z.div_eucl a b) as [q r]; exact Hq]
  end.
  match goal with
  | |- 0 <= match ?s with _ => _ end => destruct s as [| p | p] eqn:E
  end; try lia.
  apply Z.shiftl_nonneg. lia.
Qed.

End DoubleRounding.

(** ** Doubles: the comparisons and the signs of the operations *)

Lemma double_gt_zero_inv (x : Double.number) :
  Double.gt x Double.zero = true ->
  x = S754_infinity false \/ exists m e, x = S754_finite false m e.
Proof.
  destruct x as [[] | [] | | [] m e]; try discriminate; eauto.
Qed.

Lemma double_lt_not_ge (a b : Double.number) :
  Double.lt a b = true -> Double.ge a b = false.
Proof.
  unfold Double.lt, Double.ge, SFltb, SFleb.
  destruct a as [[] | [] | | [] ma ea], b as [[] | [] | | [] mb eb];
    try discriminate; try reflexivity; cbn [SFcompare];
    rewrite (Z.compare_antisym ea eb);
    destruct (ea ?= eb)%Z; cbn [CompOpp]; try discriminate; try reflexivity;
    change (Pos.compare_cont Eq ma mb) with (Pos.compare ma mb);
    change (Pos.compare_cont Eq mb ma) with (Pos.compare mb ma);
    rewrite (Pos.compare_antisym ma mb);
    destruct (Pos.compare ma mb); cbn [CompOpp]; try discriminate; reflexivity.
Qed.

Lemma double_gt_not_le (a b : Double.number) :
  Double.gt a b = true -> Double.le a b = false.
Proof. apply (double_lt_not_ge b a). Qed.

Lemma double_gt_not_NaN (a b : Double.number) :
  Double.gt a b = true -> Double.isNaN a = false.
Proof. destruct a as [| | |]; [reflexivity .. | | reflexivity]. destruct b; discriminate. Qed.

(** [a - b] is positive when [0 < b < a]: subtraction does not underflow. *)
Lemma double_sub_positive (a b : Double.number) :
  Double.is_double a = true ->
  Double.is_double b = true ->
  Double.gt b Double.zero = true -> Double.lt b a = true ->
  Double.gt (Double.sub a b) Double.zero = true /\
  Double.isFinite (Double.sub a b) = Double.isFinite a.
Proof.
  intros Va Vb Hb Hlt.
  destruct (double_gt_zero_inv b Hb) as [-> | (mb & eb & ->)].
  - destruct a as [[] | [] | | [] ma ea]; discriminate.
  - destruct a as [[] | [] | | [] ma ea]; try discriminate.
    + split; reflexivity.
    + destruct (sub_finite_positive ma mb ea eb Va Vb Hlt) as (m & e & ->).
      split; reflexivity.
Qed.

(** What lies above a positive double is positive, and what lies below
    another double is not [Infinity]. *)
Lemma double_lt_positive (a b : Double.number) :
  Double.gt b Double.zero = true -> Double.lt b a = true ->
  Double.gt a Double.zero = true /\ Double.isFinite b = true.
Proof.
  intros Hb Hlt.
  destruct (double_gt_zero_inv b Hb) as [-> | (mb & eb & ->)].
  - destruct a as [[] | [] | | [] ma ea]; discriminate.
  - destruct a as [[] | [] | | [] ma ea]; try discriminate; split; reflexivity.
Qed.

(** The product of two positive doubles is not negative and not [NaN]. *)
Lemma double_mul_positive (x y : Double.number) :
  Double.gt x Double.zero = true -> Double.gt y Double.zero = true ->
  Double.ge (Double.mul x y) Double.zero = true.
Proof.
  intros Hx Hy.
  destruct (double_gt_zero_inv x Hx) as [-> | (mx & ex & ->)];
    destruct (double_gt_zero_inv y Hy) as [-> | (my & ey & ->)];
    try reflexivity.
  unfold Double.mul, SFmul. cbn [xorb].
  destruct (binary_round_aux_sign false (Zpos (mx * my)) (ex + ey)%Z loc_Exact)
    as [-> | [-> | (m & e & ->)]]; [lia | reflexivity ..].
Qed.

(** A double that is not negative, times or divided by a finite positive
    double, is not negative and not [NaN]. *)
Lemma double_mul_nonneg_finite (x y : Double.number) :
  Double.ge x Double.zero = true ->
  Double.gt y Double.zero = true -> Double.isFinite y = true ->
  Double.ge (Double.mul x y) Double.zero = true.
Proof.
  intros Hx Hy Fy.
  destruct (double_gt_zero_inv y Hy) as [-> | (my & ey & ->)]; [discriminate |].
  destruct x as [[] | [] | | [] mx ex]; try discriminate; try reflexivity.
  unfold Double.mul, SFmul. cbn [xorb].
  destruct (binary_round_aux_sign false (Zpos (mx * my)) (ex + ey)%Z loc_Exact)
    as [-> | [-> | (m & e & ->)]]; [lia | reflexivity ..].
Qed.

Lemma double_div_nonneg_finite (x y : Double.number) :
  Double.ge x Double.zero = true ->
  Double.gt y Double.zero = true -> Double.isFinite y = true ->
  Double.ge (Double.div x y) Double.zero = true.
Proof.
  intros Hx Hy Fy.
  destruct (double_gt_zero_inv y Hy) as [-> | (my & ey & ->)]; [discriminate |].
  destruct x as [[] | [] | | [] mx ex]; try discriminate; try reflexivity.
  unfold Double.div, SFdiv. cbn [xorb].
  pose proof (SFdiv_core_binary_nonneg mx my ex ey) as Hq.
  destruct (SFdiv_core_binary Double.prec Double.emax (Zpos mx) ex (Zpos my) ey)
    as [[mz ez] lz].
  cbn [fst] in Hq.
  destruct (binary_round_aux_sign false mz ez lz Hq)
    as [-> | [-> | (m & e & ->)]]; reflexivity.
Qed.

Lemma double_binary_round_aux_cases (s : bool) (m : BinNums.positive) (e : Z)
    (l : location) :
  binary_round_aux Double.prec Double.emax s (Zpos m) e l = S754_zero s \/
  binary_round_aux Double.prec Double.emax s (Zpos m) e l = S754_infinity s \/
  exists m' e', binary_round_aux Double.prec Double.emax s (Zpos m) e l
                = S754_finite s m' e'.
Proof. apply binary_round_aux_sign. apply Pos2Z.is_nonneg. Qed.

(** The sign of a product and of a quotient of finite doubles. *)
Lemma double_mul_finite_cases (sx sy : bool) (mx my : BinNums.positive)
    (ex ey : Z) :
  let r := Double.mul (S754_finite sx mx ex) (S754_finite sy my ey) in
  r = S754_zero (xorb sx sy) \/ r = S754_infinity (xorb sx sy) \/
  exists m e, r = S754_finite (xorb sx sy) m e.
Proof. apply double_binary_round_aux_cases. Qed.

Lemma double_div_finite_cases (sx sy : bool) (mx my : BinNums.positive)
    (ex ey : Z) :
  let r := Double.div (S754_finite sx mx ex) (S754_finite sy my ey) in
  r = S754_zero (xorb sx sy) \/ r = S754_infinity (xorb sx sy) \/
  exists m e, r = S754_finite (xorb sx sy) m e.
Proof.
  cbv zeta. unfold Double.div, SFdiv.
  pose proof (SFdiv_core_binary_nonneg mx my ex ey) as Hq.
  destruct (SFdiv_core_binary Double.prec Double.emax (Zpos mx) ex (Zpos my) ey)
    as [[mz ez] lz].
  cbn [fst] in Hq. apply binary_round_aux_sign. exact Hq.
Qed.

(** ** Doubles: [Math.max(0, x)] *)

Lemma double_Math_max_zero (x : Double.number) :
  Double.isNaN (Double.Math_max Double.zero x) = true \/
  Double.ge (Double.Math_max Double.zero x) Double.zero = true.
Proof.
  destruct x as [[] | [] | | [] m e];
    first [left; reflexivity | right; reflexivity].
Qed.

Lemma double_Math_max_zero_not_below (x : Double.number) :
  Double.lt (Double.Math_max Double.zero x) Double.zero = false.
Proof. destruct x as [[] | [] | | [] m e]; reflexivity. Qed.

Lemma double_Math_max_zero_positive (x : Double.number) :
  Double.gt x Double.zero = true -> Double.Math_max Double.zero x = x.
Proof. destruct x as [[] | [] | | [] m e]; try discriminate; reflexivity. Qed.

Lemma double_Math_max_zero_gt (x : Double.number) :
  Double.gt (Double.Math_max Double.zero x) Double.zero = true ->
  Double.gt x Double.zero = true.
Proof. destruct x as [[] | [] | | [] m e]; try discriminate; reflexivity. Qed.

(** ** Doubles: the aggregator *)

Lemma double_summary_unfold (txs : list Double.Transaction) :
  Double.summary txs
  = Double.summary_finish (Double.summary_loop (filter Double.is_active txs)).
Proof.
  unfold Double.summary.
  destruct (filter Double.is_active txs); reflexivity.
Qed.

Lemma double_summary_loop_snoc (l : list Double.Transaction)
    (t : Double.Transaction) :
  Double.summary_loop (l ++ [t])
  = Double.summary_step (Double.summary_loop l) t.
Proof. unfold Double.summary_loop. rewrite fold_left_app. reflexivity. Qed.



(** ** Doubles: the annotator *)

Lemma double_annotate_step_clamped (r : Double.Running) (t : Double.Transaction) :
  exists r', snd (Double.annotate_step r t) = Double.clamp r'.
Proof.
  unfold Double.annotate_step. cbv zeta.
  destruct (Double.is_active t); [| eexists; reflexivity].
  destruct (Double.type t); [eexists; reflexivity |].
  destruct (Double.gt (Double.runningQty r) Double.zero); eexists; reflexivity.
Qed.

Lemma double_annotator_final_snoc (l : list Double.Transaction)
    (t : Double.Transaction) :
  Double.annotator_final (l ++ [t])
  = snd (Double.annotate_step (Double.annotator_final l) t).
Proof.
  unfold Double.annotator_final. generalize Double.running0.
  induction l as [| a l IH]; intros r; cbn [app Double.annotate_from snd].
  - destruct (Double.annotate_step r t). reflexivity.
  - destruct (Double.annotate_step r a) as [x r'].
    specialize (IH r').
    destruct (Double.annotate_from r' (l ++ [t])).
    destruct (Double.annotate_from r' l). exact IH.
Qed.

(** At every point of the history the running quantity and the running
    cost of the annotator are not below zero: each is [>= 0] or [NaN]. *)
Theorem double_annotator_totals_never_negative
    (pre post : list Double.Transaction) :
  let not_below (x : Double.number) :=
    Double.lt x Double.zero = false /\
    (Double.isNaN x = true \/ Double.ge x Double.zero = true) in
  not_below (Double.runningQty (Double.annotator_final pre)) /\
  not_below (Double.runningTotalCost (Double.annotator_final pre)) /\
  not_below (Double.runningQty (Double.annotator_final (pre ++ post))) /\
  not_below (Double.runningTotalCost (Double.annotator_final (pre ++ post))).
Proof.
  cbv zeta.
  assert (H : forall l,
             (Double.lt (Double.runningQty (Double.annotator_final l))
                Double.zero = false /\
              (Double.isNaN (Double.runningQty (Double.annotator_final l)) = true \/
               Double.ge (Double.runningQty (Double.annotator_final l))
                 Double.zero = true)) /\
             (Double.lt (Double.runningTotalCost (Double.annotator_final l))
                Double.zero = false /\
              (Double.isNaN (Double.runningTotalCost (Double.annotator_final l))
               = true \/
               Double.ge (Double.runningTotalCost (Double.annotator_final l))
                 Double.zero = true))).
  { intro l. destruct l as [| t l _] using rev_ind.
    - repeat split; right; reflexivity.
    - rewrite double_annotator_final_snoc.
      destruct (double_annotate_step_clamped (Double.annotator_final l) t)
        as [r' ->].
      cbn [Double.clamp Double.runningQty Double.runningTotalCost].
      repeat split;
        first [apply double_Math_max_zero_not_below | apply double_Math_max_zero]. }
  destruct (H pre) as [H1 H2]. destruct (H (pre ++ post)) as [H3 H4].
  repeat split; tauto.
Qed.

(** The sign of a finite positive double times, and of a finite double
    divided by a finite positive double. *)
Lemma double_mul_positive_signed (s : bool) (m : BinNums.positive) (e : Z)
    (d : Double.number) :
  d = S754_zero s \/ d = S754_infinity s \/
  (exists m' e', d = S754_finite s m' e') ->
  Double.mul (S754_finite false m e) d = S754_zero s \/
  Double.mul (S754_finite false m e) d = S754_infinity s \/
  exists m' e', Double.mul (S754_finite false m e) d = S754_finite s m' e'.
Proof.
  intros [-> | [-> | (m' & e' & ->)]].
  - left. reflexivity.
  - right; left. reflexivity.
  - apply (double_mul_finite_cases false s).
Qed.

Lemma double_div_positive_signed (s : bool) (mc mq : BinNums.positive)
    (ec eq : Z) :
  let d := Double.div (S754_finite s mc ec) (S754_finite false mq eq) in
  d = S754_zero s \/ d = S754_infinity s \/ exists m' e', d = S754_finite s m' e'.
Proof.
  pose proof (double_div_finite_cases s false mc mq ec eq) as H.
  rewrite xorb_false_r in H. exact H.
Qed.

Lemma double_Math_max_zero_signed (s : bool) (y : Double.number) :
  y = S754_zero s \/ y = S754_infinity s \/
  (exists m e, y = S754_finite s m e) ->
  Double.Math_max Double.zero y = if s then Double.zero else y.
Proof.
  intros [-> | [-> | (m & e & ->)]]; destruct s; reflexivity.
Qed.

(** Clamping the scaled cost of a sale is scaling the clamped cost. *)
Lemma double_clamp_scaled_cost (rq q' rc : Double.number) :
  Double.gt rq Double.zero = true -> Double.gt q' Double.zero = true ->
  Double.isFinite q' = Double.isFinite rq ->
  Double.Math_max Double.zero (Double.mul q' (Double.div rc rq))
  = Double.mul q' (Double.div (Double.Math_max Double.zero rc) rq).
Proof.
  intros Hrq Hq' Hfin.
  destruct (double_gt_zero_inv rq Hrq) as [-> | (mq & eq & ->)];
    destruct (double_gt_zero_inv q' Hq') as [-> | (m' & e' & ->)];
    try discriminate.
  - destruct rc as [[] | [] | | [] mc ec]; reflexivity.
  - destruct rc as [[] | [] | | s mc ec]; try reflexivity.
    pose proof (double_div_positive_signed s mc mq ec eq) as Hd.
    cbv zeta in Hd.
    pose proof (double_mul_positive_signed s m' e' _ Hd) as Hm.
    rewrite (double_Math_max_zero_signed s _ Hm).
    destruct s; reflexivity.
Qed.

(** ** Doubles: a sale on the position *)

(** C7 (amended).  On doubles, one more active SELL of [q] units,
    [0 < q < qty], on a position of quantity [qty] and average [avg]
    reached by the aggregator gives the quantity [qty - q], which is
    positive, the cost [(qty - q) * avg] and the average cost
    [((qty - q) * avg) / (qty - q)], each operation rounded: none of them
    depends on the price of the sale, and the new average is that rounded
    quotient, not always [avg] itself.  10 units bought at 100, then 4 sold
    at any price, give exactly 6, 600 and 100.  The quantities are doubles
    ([is_double]). *)
Theorem double_sale_scales_cost :
  (forall (txs : list Double.Transaction) (t : Double.Transaction),
      Double.type t = SELL -> Double.is_active t = true ->
      Double.is_double (Double.totalQuantity (Double.summary txs)) = true ->
      Double.is_double (Double.quantity t) = true ->
      Double.gt (Double.quantity t) Double.zero = true ->
      Double.lt (Double.quantity t) (Double.totalQuantity (Double.summary txs))
      = true ->
      let remaining :=
        Double.sub (Double.totalQuantity (Double.summary txs))
                   (Double.quantity t) in
      let cost := Double.mul remaining (Double.averageCost (Double.summary txs)) in
      Double.gt remaining Double.zero = true /\
      Double.summary (txs ++ [t])
      = Double.mkSummary remaining cost (Double.div cost remaining)) /\
  (forall p : Double.number,
      Double.summary [Double.buy (Double.of_Z 100) (Double.of_Z 10)]
      = Double.mkSummary (Double.of_Z 10) (Double.of_Z 1000) (Double.of_Z 100) /\
      Double.summary [Double.buy (Double.of_Z 100) (Double.of_Z 10);
                      Double.sell p (Double.of_Z 4)]
      = Double.mkSummary (Double.of_Z 6) (Double.of_Z 600) (Double.of_Z 100)).
Proof.
  split.
  - intros txs t Hty Hact VQ Vq Hq Hlt.
    rewrite !double_summary_unfold in *.
    rewrite filter_app. cbn [filter]. rewrite Hact.
    rewrite double_summary_loop_snoc.
    destruct (Double.summary_loop (filter Double.is_active txs)) as [rq rc].
    unfold Double.summary_finish in *.
    cbn [fst snd Double.totalQuantity Double.totalCost Double.averageCost] in *.
    destruct (double_lt_positive _ _ Hq Hlt) as [HQ _].
    pose proof (double_Math_max_zero_gt rq HQ) as Hrq.
    rewrite (double_Math_max_zero_positive rq Hrq) in *.
    rewrite Hrq.
    destruct (double_sub_positive rq (Double.quantity t) VQ Vq Hq Hlt)
      as [Hrem Hfin].
    unfold Double.summary_step. rewrite Hty, Hrq.
    cbn [fst snd].
    rewrite (double_Math_max_zero_positive _ Hrem), Hrem.
    rewrite (double_clamp_scaled_cost rq _ rc Hrq Hrem Hfin).
    split; reflexivity.
  - intros p. split; reflexivity.
Qed.

Lemma double_sale_scales_cost_witness :
  let txs := [Double.buy (Double.decimal 1 10) (Double.of_Z 7);
              Double.buy (Double.decimal 2 10) (Double.of_Z 1)] in
  let t := Double.sell (Double.of_Z 3) (Double.of_Z 2) in
  Double.totalQuantity (Double.summary (txs ++ [t])) = Double.of_Z 6.
Proof.
  destruct double_sale_scales_cost as [Hgen _].
  cbv zeta.
  destruct (Hgen [Double.buy (Double.decimal 1 10) (Double.of_Z 7);
                  Double.buy (Double.decimal 2 10) (Double.of_Z 1)]
                 (Double.sell (Double.of_Z 3) (Double.of_Z 2))
                 eq_refl eq_refl eq_refl eq_refl eq_refl eq_refl)
    as [_ H].
  rewrite H. reflexivity.
Defined.

(** C7, as the specification words it, fails on doubles: 7 units bought at 0.1 and 1 unit at 0.2 give
    the average 0.11250000000000002; after selling 2 of the 8 units the
    average is 0.1125.  The sale has changed the average cost. *)
Lemma double_sale_moves_average :
  let txs := [Double.buy (Double.decimal 1 10) (Double.of_Z 7);
              Double.buy (Double.decimal 2 10) (Double.of_Z 1)] in
  let t := Double.sell (Double.of_Z 1) (Double.of_Z 2) in
  Double.gt (Double.totalQuantity (Double.summary txs)) Double.zero = true /\
  Double.gt (Double.quantity t) Double.zero = true /\
  Double.lt (Double.quantity t) (Double.totalQuantity (Double.summary txs))
  = true /\
  Double.averageCost (Double.summary txs)
  = S754_finite false 8106479329266894 (-56) /\
  Double.averageCost (Double.summary (txs ++ [t]))
  = S754_finite false 8106479329266893 (-56) /\
  Double.strict_eq (Double.averageCost (Double.summary (txs ++ [t])))
                   (Double.averageCost (Double.summary txs)) = false.
Proof. vm_compute. repeat split; reflexivity. Qed.

(** ** Doubles: the cost-averaging solver *)

Lemma double_costAveragingData_solved (s : Double.PortfolioSummary)
    (sim : Double.SimulationResult) (p t : Double.number) :
  Double.simulation (Double.Text p) s = Some sim -> Double.status sim = LOSS ->
  Double.gt t Double.zero = true -> Double.lt p t = true ->
  Double.lt t (Double.averageCost s) = true ->
  let x :=
    Double.div (Double.mul (Double.totalQuantity s)
                           (Double.sub (Double.averageCost s) t))
               (Double.sub t p) in
  Double.costAveragingData (Double.Text t) (Double.Text p) s
  = Some (Double.Solved x (Double.mul x p)).
Proof.
  intros Hsim Hloss H0 H1 H2. cbv zeta.
  unfold Double.costAveragingData. rewrite Hsim, Hloss.
  cbn [is_loss negb Double.falsy orb Double.parseFloat].
  rewrite (double_gt_not_NaN _ _ H0), (double_gt_not_le _ _ H0).
  cbn [orb].
  pose proof (double_lt_not_ge _ _ H1) as H1'.
  pose proof (double_lt_not_ge _ _ H2) as H2'.
  unfold Double.ge in H1'. unfold Double.le. rewrite H1', H2'.
  reflexivity.
Qed.

(** C1 (amended).  On doubles, with a simulation in LOSS and a target with
    [0 < target] and [simulatedPrice < target < averageCost], the solver
    returns [requiredQty = totalQuantity * (averageCost - target) /
    (target - simulatedPrice)] and [requiredCapital = requiredQty *
    simulatedPrice], each operation rounded to the nearest double.  For 10
    units at an average of 100, a simulated price of 50 and a target of 90
    it returns exactly 2.5 and 125, and the blended average
    [(10 * 100 + 2.5 * 50) / (10 + 2.5)] is exactly 90. *)
Theorem double_costAveragingData_solution :
  (forall (s : Double.PortfolioSummary) (sim : Double.SimulationResult)
          (simPrice targetAvg : Double.number),
      Double.simulation (Double.Text simPrice) s = Some sim ->
      Double.status sim = LOSS ->
      Double.gt targetAvg Double.zero = true ->
      Double.lt simPrice targetAvg = true ->
      Double.lt targetAvg (Double.averageCost s) = true ->
      let x :=
        Double.div (Double.mul (Double.totalQuantity s)
                               (Double.sub (Double.averageCost s) targetAvg))
                   (Double.sub targetAvg simPrice) in
      Double.costAveragingData (Double.Text targetAvg) (Double.Text simPrice) s
      = Some (Double.Solved x (Double.mul x simPrice))) /\
  (let s := Double.summary [Double.buy (Double.of_Z 100) (Double.of_Z 10)] in
   Double.costAveragingData (Double.Text (Double.of_Z 90))
     (Double.Text (Double.of_Z 50)) s
   = Some (Double.Solved (Double.decimal 25 10) (Double.of_Z 125)) /\
   Double.blended (Double.totalQuantity s) (Double.averageCost s)
     (Double.decimal 25 10) (Double.of_Z 50)
   = Double.of_Z 90).
Proof.
  split.
  - intros s sim simPrice targetAvg. apply double_costAveragingData_solved.
  - vm_compute. split; reflexivity.
Qed.

Lemma double_costAveragingData_solution_witness :
  Double.costAveragingData (Double.Text (Double.of_Z 80))
    (Double.Text (Double.of_Z 60))
    (Double.summary [Double.buy (Double.of_Z 100) (Double.of_Z 10)])
  = Some (Double.Solved (Double.of_Z 10) (Double.of_Z 600)).
Proof.
  destruct double_costAveragingData_solution as [Hgen _].
  destruct (Double.simulation (Double.Text (Double.of_Z 60))
              (Double.summary [Double.buy (Double.of_Z 100) (Double.of_Z 10)]))
    as [sim |] eqn:Hsim; [| discriminate Hsim].
  assert (Hloss : Double.status sim = LOSS).
  { injection Hsim as Hsim. rewrite <- Hsim. reflexivity. }
  rewrite (Hgen _ sim (Double.of_Z 60) (Double.of_Z 80) Hsim Hloss
             eq_refl eq_refl eq_refl).
  reflexivity.
Defined.

(** C1, as the specification words it, fails on doubles: 10 units at an average of 100, a simulated
    price of 50 and a target of 95.  The solver returns
    [10 * (100 - 95) / (95 - 50)], which is 1.1111111111111112 after
    rounding, and the blended average with that quantity is
    95.00000000000001, not the target. *)
Lemma double_blended_average_misses_target :
  let s := Double.summary [Double.buy (Double.of_Z 100) (Double.of_Z 10)] in
  let x := S754_finite false 5003999585967218 (-52) in
  option_map Double.status (Double.simulation (Double.Text (Double.of_Z 50)) s)
  = Some LOSS /\
  Double.costAveragingData (Double.Text (Double.of_Z 95))
    (Double.Text (Double.of_Z 50)) s
  = Some (Double.Solved x (Double.mul x (Double.of_Z 50))) /\
  Double.blended (Double.totalQuantity s) (Double.averageCost s) x
    (Double.of_Z 50)
  = S754_finite false 6685030696878081 (-46) /\
  Double.of_Z 95 = S754_finite false 6685030696878080 (-46) /\
  Double.strict_eq
    (Double.blended (Double.totalQuantity s) (Double.averageCost s) x
       (Double.of_Z 50))
    (Double.of_Z 95) = false.
Proof. vm_compute. repeat split; reflexivity. Qed.

(** C10 (amended).  On doubles, when the solver returns a solution for a
    position of positive quantity and
    [0 < simulatedPrice < target < averageCost], the denominator
    [target - simulatedPrice] is positive (a subtraction does not
    underflow) and the two returned values are not negative and not
    [NaN]: [requiredQty >= 0] and [requiredCapital >= 0].  The average
    cost, the target and the price are doubles ([is_double]). *)
Theorem double_costAveragingData_not_negative (s : Double.PortfolioSummary)
    (simPrice targetAvg x c : Double.number) :
  Double.is_double (Double.averageCost s) = true ->
  Double.is_double targetAvg = true ->
  Double.is_double simPrice = true ->
  Double.costAveragingData (Double.Text targetAvg) (Double.Text simPrice) s
  = Some (Double.Solved x c) ->
  Double.gt (Double.totalQuantity s) Double.zero = true ->
  Double.gt simPrice Double.zero = true ->
  Double.lt simPrice targetAvg = true ->
  Double.lt targetAvg (Double.averageCost s) = true ->
  Double.gt (Double.sub targetAvg simPrice) Double.zero = true /\
  Double.ge x Double.zero = true /\
  Double.ge c Double.zero = true.
Proof.
  intros VA Vt Vp Hres HQ Hp Hpt HtA.
  destruct (double_lt_positive _ _ Hp Hpt) as [Ht Fp].
  destruct (double_lt_positive _ _ Ht HtA) as [_ Ft].
  destruct (Double.simulation (Double.Text simPrice) s) as [sim |] eqn:Hsim;
    [| unfold Double.costAveragingData in Hres; rewrite Hsim in Hres;
       discriminate Hres].
  assert (Hloss : Double.status sim = LOSS).
  { unfold Double.costAveragingData in Hres. rewrite Hsim in Hres.
    destruct (Double.status sim); [discriminate | reflexivity | discriminate]. }
  rewrite (double_costAveragingData_solved s sim simPrice targetAvg
             Hsim Hloss Ht Hpt HtA) in Hres.
  injection Hres as Hx Hc.
  destruct (double_sub_positive _ _ Vt Vp Hp Hpt) as [Hden Fden].
  destruct (double_sub_positive _ _ VA Vt Ht HtA) as [Hnum _].
  rewrite Ft in Fden.
  pose proof (double_mul_positive _ _ HQ Hnum) as Hprod.
  pose proof (double_div_nonneg_finite _ _ Hprod Hden Fden) as Hquot.
  split; [exact Hden |]. split; [rewrite <- Hx; exact Hquot |].
  rewrite <- Hc. apply double_mul_nonneg_finite; assumption.
Qed.

Lemma double_costAveragingData_not_negative_witness :
  exists x c,
    Double.costAveragingData (Double.Text (Double.of_Z 90))
      (Double.Text (Double.of_Z 50))
      (Double.summary [Double.buy (Double.of_Z 100) (Double.of_Z 10)])
    = Some (Double.Solved x c) /\
    Double.ge x Double.zero = true /\ Double.ge c Double.zero = true.
Proof.
  exists (Double.decimal 25 10), (Double.of_Z 125).
  split; [reflexivity |].
  apply (double_costAveragingData_not_negative
           (Double.summary [Double.buy (Double.of_Z 100) (Double.of_Z 10)])
           (Double.of_Z 50) (Double.of_Z 90)
           (Double.decimal 25 10) (Double.of_Z 125));
    reflexivity.
Defined.

(** C10, as the specification words it, fails on doubles: 1 unit bought at 100, the simulated price
    [Number.MIN_VALUE] (5e-324) and the target 99.  All the guards hold
    and the solver returns [requiredQty = 1 / 99], but the capital
    [requiredQty * simulatedPrice] is below half of the smallest positive
    double and rounds to [0]: it is not strictly positive. *)
Lemma double_required_capital_underflows :
  let s := Double.summary [Double.buy (Double.of_Z 100) (Double.of_Z 1)] in
  let simPrice := Double.MIN_VALUE in
  let targetAvg := Double.of_Z 99 in
  Double.gt (Double.totalQuantity s) Double.zero = true /\
  Double.gt simPrice Double.zero = true /\
  Double.lt simPrice targetAvg = true /\
  Double.lt targetAvg (Double.averageCost s) = true /\
  Double.costAveragingData (Double.Text targetAvg) (Double.Text simPrice) s
  = Some (Double.Solved (Double.div (Double.of_Z 1) (Double.of_Z 99))
            Double.zero) /\
  Double.gt Double.zero Double.zero = false.
Proof. vm_compute. repeat split; reflexivity. Qed.
